(** * OpenStudyBuilder front end: terminology client and study session store

    A shallow embedding of

    - [studybuilder/src/api/controlledTerminology.js], the client of the
      [ct] resource, and
    - [studybuilder/src/stores/studies-general.js], the Pinia store that
      holds the selected study and the reference collections,

    together with the part of the JavaScript run time that the two files
    rely on: property access, string and number coercion, [JSON.stringify]
    and [JSON.parse], [Array.prototype.sort], promises settled by the
    environment, and [localStorage].

    Numbers are integers ([Z]): the data the two files handle (term orders,
    page sizes, version numbers) is integral, and binary floating point is
    not represented.  Strings are sequences of code units below 256. *)

From Stdlib Require Import ZArith Ascii String List Sorted Permutation Lia.
From Stdlib Require Import DecimalString DecimalZ DecimalPos DecimalFacts.
From stdpp Require Import base option gmap strings list.

Import ListNotations.
Local Open Scope Z_scope.
Local Open Scope string_scope.
Local Open Scope list_scope.

(** ** JavaScript values *)

Module JS.

(** The values that travel through the two files: JSON documents, plus
    [undefined].  An object lists its own members in enumeration order. *)
#[local] Unset Elimination Schemes.
Inductive value : Type :=
| VUndefined
| VNull
| VBool (b : bool)
| VNum (n : Z)
| VStr (s : string)
| VArr (elems : list value)
| VObj (members : list (string * value)).
#[local] Set Elimination Schemes.

(** What a [throw] or a rejected promise carries. *)
Inductive exn : Type :=
| TypeError
| SyntaxError
| Reason (v : value).

Inductive result (A : Type) : Type :=
| Ok (a : A)
| Throw (e : exn).
Arguments Ok {A} a.
Arguments Throw {A} e.

Definition bind {A B} (r : result A) (k : A -> result B) : result B :=
  match r with
  | Ok a => k a
  | Throw e => Throw e
  end.

(** [o.k] for an object literal built by the program. *)
Fixpoint lookup_member (k : string) (ms : list (string * value)) : value :=
  match ms with
  | [] => VUndefined
  | (k', v) :: ms' => if String.eqb k k' then v else lookup_member k ms'
  end.

(** [o[k] = v]: overwrite in place when the key exists, append
    otherwise. *)
Fixpoint set_member (k : string) (v : value) (ms : list (string * value))
  : list (string * value) :=
  match ms with
  | [] => [(k, v)]
  | (k', v') :: ms' =>
      if String.eqb k k' then (k, v) :: ms' else (k', v') :: set_member k v ms'
  end.

(** Decimal spelling of integers, as [Number.prototype.toString] gives
    it. *)
Definition string_of_Z (z : Z) : string :=
  NilZero.string_of_int (Z.to_int z).

(** An array index is the canonical decimal spelling of a natural
    number. *)
Definition key_of_index (i : nat) : string :=
  NilZero.string_of_uint (Nat.to_uint i).

Definition index_of_key (k : string) : option nat :=
  match NilZero.uint_of_string k with
  | Some d =>
      if String.eqb (NilZero.string_of_uint (Decimal.unorm d)) k
      then Some (Nat.of_uint d) else None
  | None => None
  end.

Definition char_at (s : string) (i : nat) : value :=
  match String.get i s with
  | Some c => VStr (String c EmptyString)
  | None => VUndefined
  end.

(** [v.k] and [v[k]] on own properties.  Reading a property of
    [undefined] or [null] throws a [TypeError]; a missing property reads
    as [undefined].  Members inherited from prototypes are not
    represented: the two files read none on data. *)
Definition get_prop (v : value) (k : string) : result value :=
  match v with
  | VUndefined | VNull => Throw TypeError
  | VBool _ | VNum _ => Ok VUndefined
  | VStr s =>
      Ok (match index_of_key k with
          | Some i => char_at s i
          | None =>
              if String.eqb k "length"
              then VNum (Z.of_nat (String.length s)) else VUndefined
          end)
  | VArr l =>
      Ok (match index_of_key k with
          | Some i => nth i l VUndefined
          | None =>
              if String.eqb k "length"
              then VNum (Z.of_nat (List.length l)) else VUndefined
          end)
  | VObj ms => Ok (lookup_member k ms)
  end.

Definition get_index (v : value) (i : nat) : result value :=
  get_prop v (key_of_index i).

(** [v.k1.k2...] *)
Fixpoint get_path (v : value) (ks : list string) : result value :=
  match ks with
  | [] => Ok v
  | k :: ks' => bind (get_prop v k) (fun v' => get_path v' ks')
  end.

(** ToBoolean. *)
Definition truthy (v : value) : bool :=
  match v with
  | VUndefined | VNull => false
  | VBool b => b
  | VNum n => negb (Z.eqb n 0)
  | VStr s => negb (String.eqb s EmptyString)
  | VArr _ | VObj _ => true
  end.

Fixpoint join (sep : string) (l : list string) : string :=
  match l with
  | [] => EmptyString
  | [s] => s
  | s :: l' => String.append s (String.append sep (join sep l'))
  end.

(** ToString, as a template literal applies it. *)
Fixpoint to_string (v : value) : string :=
  match v with
  | VUndefined => "undefined"
  | VNull => "null"
  | VBool true => "true"
  | VBool false => "false"
  | VNum n => string_of_Z n
  | VStr s => s
  | VArr l =>
      join ","
        (map (fun e => match e with
                       | VUndefined | VNull => EmptyString
                       | _ => to_string e
                       end) l)
  | VObj _ => "[object Object]"
  end.

End JS.

(** ** Numeric coercion and subtraction *)

Module Num.
Import JS.

(** White space that StringToNumber strips: tab, line feed, vertical tab,
    form feed, carriage return, space and no-break space. *)
Definition is_space (c : ascii) : bool :=
  let n := nat_of_ascii c in
  (Nat.leb 9 n && Nat.leb n 13) || Nat.eqb n 32 || Nat.eqb n 160.

Fixpoint drop_spaces (l : list ascii) : list ascii :=
  match l with
  | c :: l' => if is_space c then drop_spaces l' else l
  | [] => []
  end.

Definition trim (s : string) : string :=
  string_of_list_ascii
    (rev (drop_spaces (rev (drop_spaces (list_ascii_of_string s))))).

(** StringToNumber on the integer model: the empty string is 0, an
    optionally signed run of decimal digits is that integer, and every other
    spelling is [NaN] ([None]). *)
Definition number_of_string (s : string) : option Z :=
  match trim s with
  | EmptyString => Some 0
  | (String c r) as t =>
      if Ascii.eqb c "-" then
        match r with
        | EmptyString => None
        | _ => option_map (fun d => - Z.of_uint d) (NilEmpty.uint_of_string r)
        end
      else if Ascii.eqb c "+" then
        match r with
        | EmptyString => None
        | _ => option_map Z.of_uint (NilEmpty.uint_of_string r)
        end
      else option_map Z.of_uint (NilEmpty.uint_of_string t)
  end.

(** ToNumber; [None] is [NaN]. *)
Definition to_number (v : value) : option Z :=
  match v with
  | VUndefined => None
  | VNull => Some 0
  | VBool b => Some (if b then 1 else 0)
  | VNum n => Some n
  | VStr s => number_of_string s
  | VArr _ | VObj _ => number_of_string (to_string v)
  end.

(** [a - b]. *)
Definition minus (a b : value) : option Z :=
  match to_number a, to_number b with
  | Some x, Some y => Some (x - y)
  | _, _ => None
  end.

End Num.

(** ** [JSON.stringify] and [JSON.parse] *)

Module JSON.
Import JS.

Definition chars (s : string) : list ascii := list_ascii_of_string s.

(** The quotation mark, code unit 34. *)
Definition dquote : ascii := Ascii false true false false false true false false.

Definition hex_digit (n : nat) : ascii :=
  nth n (chars "0123456789abcdef") "0"%char.

(** QuoteJSONString on one code unit. *)
Definition quote_char (c : ascii) : list ascii :=
  let n := nat_of_ascii c in
  if Ascii.eqb c dquote then ["\"%char; dquote]
  else if Ascii.eqb c "\" then chars "\\"
  else if Nat.eqb n 8 then chars "\b"
  else if Nat.eqb n 9 then chars "\t"
  else if Nat.eqb n 10 then chars "\n"
  else if Nat.eqb n 12 then chars "\f"
  else if Nat.eqb n 13 then chars "\r"
  else if Nat.ltb n 32 then
    chars "\u00" ++ [hex_digit (Nat.div n 16); hex_digit (Nat.modulo n 16)]
  else [c].

Definition quote (s : string) : list ascii :=
  dquote :: flat_map quote_char (chars s) ++ [dquote].

Fixpoint commas (parts : list (list ascii)) : list ascii :=
  match parts with
  | [] => []
  | [p] => p
  | p :: parts' => p ++ ","%char :: commas parts'
  end.

Fixpoint somes {A} (l : list (option A)) : list A :=
  match l with
  | [] => []
  | Some a :: l' => a :: somes l'
  | None :: l' => somes l'
  end.

(** SerializeJSONProperty without indentation.  [undefined] has no text of
    its own: an array spells it [null] and an object leaves the member
    out. *)
Fixpoint print (v : value) : list ascii :=
  match v with
  | VUndefined => []
  | VNull => chars "null"
  | VBool true => chars "true"
  | VBool false => chars "false"
  | VNum n => chars (string_of_Z n)
  | VStr s => quote s
  | VArr l =>
      "["%char ::
        commas (map (fun e => match e with
                              | VUndefined => chars "null"
                              | _ => print e
                              end) l) ++ ["]"%char]
  | VObj ms =>
      "{"%char ::
        commas (somes (map (fun m => match snd m with
                                     | VUndefined => None
                                     | _ => Some (quote (fst m) ++ ":"%char :: print (snd m))
                                     end) ms)) ++ ["}"%char]
  end.

(** [JSON.stringify(v)]; the result is [undefined] ([None]) when [v] is. *)
Definition stringify (v : value) : option string :=
  match v with
  | VUndefined => None
  | _ => Some (string_of_list_ascii (print v))
  end.

(** *** Parsing *)

(** JSON white space: tab, line feed, carriage return, space. *)
Definition is_ws (c : ascii) : bool :=
  let n := nat_of_ascii c in
  Nat.eqb n 9 || Nat.eqb n 10 || Nat.eqb n 13 || Nat.eqb n 32.

Fixpoint skip_ws (s : list ascii) : list ascii :=
  match s with
  | c :: s' => if is_ws c then skip_ws s' else s
  | [] => []
  end.

Fixpoint expect (p s : list ascii) : option (list ascii) :=
  match p, s with
  | [], _ => Some s
  | a :: p', b :: s' => if Ascii.eqb a b then expect p' s' else None
  | _ :: _, [] => None
  end.

Definition hex_value (c : ascii) : option nat :=
  let n := nat_of_ascii c in
  if Nat.leb 48 n && Nat.leb n 57 then Some (n - 48)%nat
  else if Nat.leb 97 n && Nat.leb n 102 then Some (n - 87)%nat
  else if Nat.leb 65 n && Nat.leb n 70 then Some (n - 55)%nat
  else None.

(** The code unit written [\uXXXX]; units from 256 up are outside the
    string model and read as a failure. *)
Definition unicode_escape (a b c d : ascii) : option ascii :=
  match hex_value a, hex_value b, hex_value c, hex_value d with
  | Some x, Some y, Some z, Some w =>
      let n := (((x * 16 + y) * 16 + z) * 16 + w)%nat in
      if Nat.ltb n 256 then Some (ascii_of_nat n) else None
  | _, _, _, _ => None
  end.

Definition simple_escape (e : ascii) : option ascii :=
  if Ascii.eqb e dquote then Some dquote
  else if Ascii.eqb e "\" then Some "\"%char
  else if Ascii.eqb e "/" then Some "/"%char
  else if Ascii.eqb e "b" then Some (ascii_of_nat 8)
  else if Ascii.eqb e "t" then Some (ascii_of_nat 9)
  else if Ascii.eqb e "n" then Some (ascii_of_nat 10)
  else if Ascii.eqb e "f" then Some (ascii_of_nat 12)
  else if Ascii.eqb e "r" then Some (ascii_of_nat 13)
  else None.

Definition cons_char (c : ascii) (r : option (string * list ascii))
  : option (string * list ascii) :=
  match r with
  | Some (str, rest) => Some (String c str, rest)
  | None => None
  end.

(** The characters of a string literal after its opening quotation mark,
    up to and including the closing one. *)
Fixpoint parse_str (s : list ascii) : option (string * list ascii) :=
  match s with
  | [] => None
  | c :: r =>
      if Ascii.eqb c dquote then Some (EmptyString, r)
      else if Ascii.eqb c "\" then
        match r with
        | [] => None
        | e :: r1 =>
            if Ascii.eqb e "u" then
              match r1 with
              | h1 :: h2 :: h3 :: h4 :: r2 =>
                  match unicode_escape h1 h2 h3 h4 with
                  | Some u => cons_char u (parse_str r2)
                  | None => None
                  end
              | _ => None
              end
            else
              match simple_escape e with
              | Some u => cons_char u (parse_str r1)
              | None => None
              end
        end
      else if Nat.ltb (nat_of_ascii c) 32 then None
      else cons_char c (parse_str r)
  end.

Definition digit_of_char (c : ascii) : option (Decimal.uint -> Decimal.uint) :=
  match Nat.sub (nat_of_ascii c) 48, Nat.leb 48 (nat_of_ascii c) with
  | 0%nat, true => Some Decimal.D0
  | 1%nat, _ => Some Decimal.D1
  | 2%nat, _ => Some Decimal.D2
  | 3%nat, _ => Some Decimal.D3
  | 4%nat, _ => Some Decimal.D4
  | 5%nat, _ => Some Decimal.D5
  | 6%nat, _ => Some Decimal.D6
  | 7%nat, _ => Some Decimal.D7
  | 8%nat, _ => Some Decimal.D8
  | 9%nat, _ => Some Decimal.D9
  | _, _ => None
  end.

(** The longest run of decimal digits at the head of [s]. *)
Fixpoint take_digits (s : list ascii) : Decimal.uint * list ascii :=
  match s with
  | c :: r =>
      match digit_of_char c with
      | Some D => let (d, r') := take_digits r in (D d, r')
      | None => (Decimal.Nil, s)
      end
  | [] => (Decimal.Nil, [])
  end.

Definition uint_eqb (a b : Decimal.uint) : bool :=
  if Decimal.uint_eq_dec a b then true else false.

(** A JSON integer: an optional minus sign and digits without a leading
    zero.  A fraction or an exponent is not an integer spelling and reads
    as a failure. *)
Definition parse_number (s : list ascii) : option (value * list ascii) :=
  let (neg, s1) :=
    match s with
    | c :: r => if Ascii.eqb c "-" then (true, r) else (false, s)
    | [] => (false, s)
    end in
  let (d, r) := take_digits s1 in
  if uint_eqb (Decimal.unorm d) d then
    match r with
    | c :: _ =>
        if Ascii.eqb c "." || Ascii.eqb c "e" || Ascii.eqb c "E" then None
        else Some (VNum (Z.of_int (if neg then Decimal.Neg d else Decimal.Pos d)), r)
    | [] => Some (VNum (Z.of_int (if neg then Decimal.Neg d else Decimal.Pos d)), r)
    end
  else None.

(** What the parser is in the middle of: a value, the elements of an array
    after [acc], or the members of an object after [acc]. *)
Inductive mode : Type :=
| MValue
| MElems (acc : list value)
| MMembers (acc : list (string * value)).

Fixpoint parse (fuel : nat) (m : mode) (s : list ascii)
  : option (value * list ascii) :=
  match fuel with
  | O => None
  | S fuel' =>
      match m with
      | MValue =>
          match skip_ws s with
          | [] => None
          | (c :: r) as s0 =>
              if Ascii.eqb c dquote then
                match parse_str r with
                | Some (str, r') => Some (VStr str, r')
                | None => None
                end
              else if Ascii.eqb c "[" then
                match skip_ws r with
                | c' :: r' =>
                    if Ascii.eqb c' "]" then Some (VArr [], r')
                    else parse fuel' (MElems []) r
                | [] => None
                end
              else if Ascii.eqb c "{" then
                match skip_ws r with
                | c' :: r' =>
                    if Ascii.eqb c' "}" then Some (VObj [], r')
                    else parse fuel' (MMembers []) r
                | [] => None
                end
              else if Ascii.eqb c "n" then
                option_map (pair VNull) (expect (chars "ull") r)
              else if Ascii.eqb c "t" then
                option_map (pair (VBool true)) (expect (chars "rue") r)
              else if Ascii.eqb c "f" then
                option_map (pair (VBool false)) (expect (chars "alse") r)
              else parse_number s0
          end
      | MElems acc =>
          match parse fuel' MValue s with
          | Some (v, r) =>
              match skip_ws r with
              | c :: r' =>
                  if Ascii.eqb c "," then parse fuel' (MElems (acc ++ [v])) r'
                  else if Ascii.eqb c "]" then Some (VArr (acc ++ [v]), r')
                  else None
              | [] => None
              end
          | None => None
          end
      | MMembers acc =>
          match skip_ws s with
          | c :: r =>
              if Ascii.eqb c dquote then
                match parse_str r with
                | Some (k, r1) =>
                    match skip_ws r1 with
                    | c1 :: r2 =>
                        if Ascii.eqb c1 ":" then
                          match parse fuel' MValue r2 with
                          | Some (v, r3) =>
                              match skip_ws r3 with
                              | c3 :: r4 =>
                                  if Ascii.eqb c3 "," then
                                    parse fuel' (MMembers (set_member k v acc)) r4
                                  else if Ascii.eqb c3 "}" then
                                    Some (VObj (set_member k v acc), r4)
                                  else None
                              | [] => None
                              end
                          | None => None
                          end
                        else None
                    | [] => None
                    end
                | None => None
                end
              else None
          | [] => None
          end
      end
  end.

(** [JSON.parse(s)]; [None] is the [SyntaxError]. *)
Definition parse_text (s : string) : option value :=
  let cs := chars s in
  match parse (S (List.length cs)) MValue cs with
  | Some (v, r) =>
      match skip_ws r with
      | [] => Some v
      | _ :: _ => None
      end
  | None => None
  end.

(** *** JSON documents *)

Fixpoint distinct (ks : list string) : bool :=
  match ks with
  | [] => true
  | k :: ks' => negb (existsb (String.eqb k) ks') && distinct ks'
  end.

(** The values that are JSON documents: no [undefined] at any depth, and
    no key twice in one object.  Responses of the back end and results of
    [JSON.parse] are of this kind. *)
Fixpoint is_json (v : value) : bool :=
  match v with
  | VUndefined => false
  | VNull | VBool _ | VNum _ | VStr _ => true
  | VArr l => forallb is_json l
  | VObj ms => distinct (map fst ms) && forallb (fun m => is_json (snd m)) ms
  end.

(** The number of nodes of a value; the parser needs that much fuel. *)
Fixpoint size (v : value) : nat :=
  match v with
  | VArr l => S (list_sum (map (fun e => S (size e)) l))
  | VObj ms => S (list_sum (map (fun m => S (size (snd m))) ms))
  | _ => 1
  end.

(** *** Texts within the model *)



(** *** Reading back what was written *)

(** The first character of the rest does not continue a number. *)
Definition delimited (rest : list ascii) : Prop :=
  match rest with
  | [] => True
  | c :: _ =>
      digit_of_char c = None /\
      (Ascii.eqb c "." || Ascii.eqb c "e" || Ascii.eqb c "E") = false
  end.

(** The characters a number can start with. *)
Definition num_start (c : ascii) : bool :=
  match digit_of_char c with
  | Some _ => true
  | None => Ascii.eqb c "-"
  end.

(** The characters that neither are white space nor close a bracket. *)
Definition value_start (c : ascii) : bool :=
  negb (is_ws c) && negb (Ascii.eqb c "]") && negb (Ascii.eqb c "}").

(** The text of one member of an object. *)
Definition member_text (m : string * value) : list ascii :=
  quote (fst m) ++ ":"%char :: print (snd m).

(** The fuel the elements of a list need. *)
Definition weight {A} (f : A -> value) (l : list A) : nat :=
  list_sum (map (fun a => S (size (f a))) l).

(** With [fuel], the parser reads back the text of every document, of
    every list of elements and of every list of members that is not
    bigger than [fuel]. *)
Definition reads_value (fuel : nat) : Prop :=
  forall v rest, is_json v = true -> (size v <= fuel)%nat -> delimited rest ->
    parse fuel MValue (print v ++ rest) = Some (v, rest).

Definition reads_elems (fuel : nat) : Prop :=
  forall l acc rest, l <> [] -> forallb is_json l = true ->
    (weight id l <= fuel)%nat ->
    parse fuel (MElems acc) (commas (map print l) ++ "]"%char :: rest)
    = Some (VArr (acc ++ l), rest).

Definition reads_members (fuel : nat) : Prop :=
  forall ms acc rest, ms <> [] -> forallb (fun m => is_json (snd m)) ms = true ->
    distinct (map fst (acc ++ ms)) = true ->
    (weight snd ms <= fuel)%nat ->
    parse fuel (MMembers acc) (commas (map member_text ms) ++ "}"%char :: rest)
    = Some (VObj (acc ++ ms), rest).

End JSON.

(** ** [Array.prototype.sort] *)

Module ArraySort.
Import JS.

(** A comparator answers with a number, [NaN] ([None]) included, or
    throws. *)
Definition comparator : Type := value -> value -> result (option Z).

(** [x] goes behind [y] exactly when the comparator's answer is positive;
    [NaN] counts as zero. *)
Definition behind (c : option Z) : bool :=
  match c with
  | Some z => Z.ltb 0 z
  | None => false
  end.

Fixpoint insert (cmp : comparator) (x : value) (l : list value)
  : result (list value) :=
  match l with
  | [] => Ok [x]
  | y :: l' =>
      bind (cmp x y) (fun c =>
        if behind c then bind (insert cmp x l') (fun r => Ok (y :: r))
        else Ok (x :: l))
  end.

Fixpoint isort (cmp : comparator) (l : list value) : result (list value) :=
  match l with
  | [] => Ok []
  | x :: l' => bind (isort cmp l') (insert cmp x)
  end.

Definition is_undefined (v : value) : bool :=
  match v with
  | VUndefined => true
  | _ => false
  end.

(** [l.sort(cmp)]: the elements other than [undefined] in the stable order
    the comparator induces, then the [undefined] ones, which the comparator
    never sees.  A comparator that throws aborts the sort.  The language
    fixes the outcome for a consistent comparator (the sort is stable);
    insertion from the right computes it. *)
Definition sort (cmp : comparator) (l : list value) : result (list value) :=
  bind (isort cmp (List.filter (fun v => negb (is_undefined v)) l)) (fun s =>
    Ok (s ++ List.filter is_undefined l)).

End ArraySort.

(** ** [api/controlledTerminology.js] *)

Module ControlledTerminology.
Import JS.

Inductive method : Type := GET | POST | PATCH | DELETE.

(** One call of the HTTP client [repository]: the method, the URL and the
    arguments that follow the URL. *)
Record http_call : Type := mk_call {
  call_method : method;
  call_url : string;
  call_args : list value
}.

(** The promise [repository] returns for its [n]-th call. *)
Inductive promise : Type := Response (n : nat).

(** The client runs against the log of calls issued so far. *)
Definition Repo (A : Type) : Type := list http_call -> A * list http_call.

Definition repository (m : method) (url : string) (args : list value)
  : Repo promise :=
  fun log => (Response (List.length log), log ++ [mk_call m url args]).

Definition resource : string := "ct".

(** A template literal: the pieces are concatenated after ToString. *)
Definition template (pieces : list value) : string :=
  String.concat EmptyString (map to_string pieces).

(** The own enumerable members [{...o}] copies. *)
Definition spread (o : value) : list (string * value) :=
  match o with
  | VObj ms => ms
  | VArr l => imap (fun i v => (key_of_index i, v)) l
  | VStr s =>
      imap (fun i c => (key_of_index i, VStr (String c EmptyString)))
        (list_ascii_of_string s)
  | _ => []
  end.

Definition with_params (params : value) : list value :=
  [VObj [("params", params)]].

Definition getCatalogues : Repo promise :=
  repository GET (template [VStr resource; VStr "/catalogues"]) [].

Definition getPackages (params : value) : Repo promise :=
  repository GET (template [VStr resource; VStr "/packages"]) (with_params params).

Definition getSponsorPackages : Repo promise :=
  let params := VObj [("catalogue", VStr "SDTM CT"); ("sponsor_only", VBool true)] in
  repository GET (template [VStr resource; VStr "/packages"]) (with_params params).

Definition getPackagesDates (catalogueName : value) : Repo promise :=
  let params := VObj [("catalogue_name", catalogueName)] in
  repository GET (template [VStr resource; VStr "/packages/dates"]) (with_params params).

Definition getPackagesChanges (catalogueName fromDate toDate : value) : Repo promise :=
  let params := VObj [("catalogue_name", catalogueName);
                      ("old_package_date", fromDate);
                      ("new_package_date", toDate)] in
  repository GET (template [VStr resource; VStr "/packages/changes"]) (with_params params).

Definition getPackagesCodelistChanges (codelistUid catalogueName fromDate toDate : value)
  : Repo promise :=
  let params := VObj [("catalogue_name", catalogueName);
                      ("old_package_date", fromDate);
                      ("new_package_date", toDate)] in
  repository GET
    (template [VStr resource; VStr "/packages/"; codelistUid; VStr "/changes"])
    (with_params params).

Definition createSponsorPackage (data : value) : Repo promise :=
  repository POST (template [VStr resource; VStr "/packages/sponsor"]) [data].

Definition getCodelists (options : value) : Repo promise :=
  let params := spread options in
  let params :=
    match lookup_member "page_size" params with
    | VNum (-1) => set_member "page_size" (VNum 1000) params
    | _ => params
    end in
  repository GET (template [VStr resource; VStr "/codelists"]) (with_params (VObj params)).

Definition getCodelistNames (codelistUid : value) : Repo promise :=
  repository GET (template [VStr resource; VStr "/codelists/"; codelistUid; VStr "/names"]) [].

Definition getCodelistNamesVersions (codelistUid : value) : Repo promise :=
  repository GET
    (template [VStr resource; VStr "/codelists/"; codelistUid; VStr "/names/versions"]) [].

Definition updateCodelistNames (codelistUid data : value) : Repo promise :=
  repository PATCH
    (template [VStr resource; VStr "/codelists/"; codelistUid; VStr "/names"]) [data].

Definition newCodelistNamesVersion (codelistUid : value) : Repo promise :=
  repository POST
    (template [VStr resource; VStr "/codelists/"; codelistUid; VStr "/names/versions"]) [].

Definition approveCodelistNames (codelistUid : value) : Repo promise :=
  repository POST
    (template [VStr resource; VStr "/codelists/"; codelistUid; VStr "/names/approvals"]) [].

Definition getCodelistAttributes (codelistUid : value) : Repo promise :=
  repository GET
    (template [VStr resource; VStr "/codelists/"; codelistUid; VStr "/attributes"]) [].

Definition getCodelistAttributesVersions (codelistUid : value) : Repo promise :=
  repository GET
    (template [VStr resource; VStr "/codelists/"; codelistUid; VStr "/attributes/versions"]) [].

Definition newCodelistAttributesVersion (codelistUid : value) : Repo promise :=
  repository POST
    (template [VStr resource; VStr "/codelists/"; codelistUid; VStr "/attributes/versions"]) [].

Definition approveCodelistAttributes (codelistUid : value) : Repo promise :=
  repository POST
    (template [VStr resource; VStr "/codelists/"; codelistUid; VStr "/attributes/approvals"]) [].

Definition getCodelistTerms (params : value) : Repo promise :=
  repository GET (template [VStr resource; VStr "/terms"]) (with_params params).

Definition getCodelistTermsNames (params : value) : Repo promise :=
  repository GET (template [VStr resource; VStr "/terms/names"]) (with_params params).

Definition getCodelistTermNames (termUid : value) : Repo promise :=
  repository GET (template [VStr resource; VStr "/terms/"; termUid; VStr "/names"]) [].

Definition getCodelistTermNamesVersions (termUid : value) : Repo promise :=
  repository GET
    (template [VStr resource; VStr "/terms/"; termUid; VStr "/names/versions"]) [].

Definition newCodelistTermNamesVersion (termUid : value) : Repo promise :=
  repository POST
    (template [VStr resource; VStr "/terms/"; termUid; VStr "/names/versions"]) [].

Definition approveCodelistTermNames (termUid : value) : Repo promise :=
  repository POST
    (template [VStr resource; VStr "/terms/"; termUid; VStr "/names/approvals"]) [].

Definition inactivateCodelistTermNames (termUid : value) : Repo promise :=
  repository DELETE
    (template [VStr resource; VStr "/terms/"; termUid; VStr "/names/activations"]) [].

Definition reactivateCodelistTermNames (termUid : value) : Repo promise :=
  repository POST
    (template [VStr resource; VStr "/terms/"; termUid; VStr "/names/activations"]) [].

Definition deleteCodelistTermNames (termUid : value) : Repo promise :=
  repository DELETE (template [VStr resource; VStr "/terms/"; termUid; VStr "/names"]) [].

Definition getCodelistTermsAttributes (codelistUid options : value) : Repo promise :=
  let params := set_member "codelist_uid" codelistUid (spread options) in
  repository GET (template [VStr resource; VStr "/terms/attributes"])
    (with_params (VObj params)).

Definition getCodelistTermAttributes (termUid : value) : Repo promise :=
  repository GET (template [VStr resource; VStr "/terms/"; termUid; VStr "/attributes"]) [].

Definition getCodelistTermAttributesVersions (termUid : value) : Repo promise :=
  repository GET
    (template [VStr resource; VStr "/terms/"; termUid; VStr "/attributes/versions"]) [].

Definition newCodelistTermAttributesVersion (termUid : value) : Repo promise :=
  repository POST
    (template [VStr resource; VStr "/terms/"; termUid; VStr "/attributes/versions"]) [].

Definition approveCodelistTermAttributes (termUid : value) : Repo promise :=
  repository POST
    (template [VStr resource; VStr "/terms/"; termUid; VStr "/attributes/approvals"]) [].

Definition inactivateCodelistTermAttributes (termUid : value) : Repo promise :=
  repository DELETE
    (template [VStr resource; VStr "/terms/"; termUid; VStr "/attributes/activations"]) [].

Definition reactivateCodelistTermAttributes (termUid : value) : Repo promise :=
  repository POST
    (template [VStr resource; VStr "/terms/"; termUid; VStr "/attributes/activations"]) [].

Definition deleteCodelistTermAttributes (termUid : value) : Repo promise :=
  repository DELETE
    (template [VStr resource; VStr "/terms/"; termUid; VStr "/attributes"]) [].

Definition createCodelistTerm (data : value) : Repo promise :=
  repository POST (template [VStr resource; VStr "/terms"]) [data].

Definition addTermToCodelist (codelistUid termUid : value) : Repo promise :=
  let data := VObj [("term_uid", termUid); ("order", VNum 999999)] in
  repository POST
    (template [VStr resource; VStr "/codelists/"; codelistUid; VStr "/terms"]) [data].

Definition removeTermFromCodelist (codelistUid termUid : value) : Repo promise :=
  repository DELETE
    (template [VStr resource; VStr "/codelists/"; codelistUid; VStr "/terms/"; termUid]) [].

Definition updateCodelistTermOrder (termUid data : value) : Repo promise :=
  repository PATCH (template [VStr resource; VStr "/terms/"; termUid; VStr "/order"]) [data].

Definition updateCodelistTermNames (termUid data : value) : Repo promise :=
  repository PATCH (template [VStr resource; VStr "/terms/"; termUid; VStr "/names"]) [data].

Definition updateCodelistTermAttributes (termUid data : value) : Repo promise :=
  repository PATCH
    (template [VStr resource; VStr "/terms/"; termUid; VStr "/attributes"]) [data].

Definition updateCodelistAttributes (codelistUid data : value) : Repo promise :=
  repository PATCH
    (template [VStr resource; VStr "/codelists/"; codelistUid; VStr "/attributes"]) [data].

Definition createCodelist (data : value) : Repo promise :=
  repository POST (template [VStr resource; VStr "/codelists"]) [data].

Definition getStats : Repo promise :=
  repository GET (template [VStr resource; VStr "/stats"]) [].

(** An operation of the client applied to the caller's arguments. *)
Inductive operation : Type :=
| Call_getCatalogues
| Call_getPackages (params : value)
| Call_getSponsorPackages
| Call_getPackagesDates (catalogueName : value)
| Call_getPackagesChanges (catalogueName fromDate toDate : value)
| Call_getPackagesCodelistChanges (codelistUid catalogueName fromDate toDate : value)
| Call_createSponsorPackage (data : value)
| Call_getCodelists (options : value)
| Call_getCodelistNames (codelistUid : value)
| Call_getCodelistNamesVersions (codelistUid : value)
| Call_updateCodelistNames (codelistUid data : value)
| Call_newCodelistNamesVersion (codelistUid : value)
| Call_approveCodelistNames (codelistUid : value)
| Call_getCodelistAttributes (codelistUid : value)
| Call_getCodelistAttributesVersions (codelistUid : value)
| Call_newCodelistAttributesVersion (codelistUid : value)
| Call_approveCodelistAttributes (codelistUid : value)
| Call_getCodelistTerms (params : value)
| Call_getCodelistTermsNames (params : value)
| Call_getCodelistTermNames (termUid : value)
| Call_getCodelistTermNamesVersions (termUid : value)
| Call_newCodelistTermNamesVersion (termUid : value)
| Call_approveCodelistTermNames (termUid : value)
| Call_inactivateCodelistTermNames (termUid : value)
| Call_reactivateCodelistTermNames (termUid : value)
| Call_deleteCodelistTermNames (termUid : value)
| Call_getCodelistTermsAttributes (codelistUid options : value)
| Call_getCodelistTermAttributes (termUid : value)
| Call_getCodelistTermAttributesVersions (termUid : value)
| Call_newCodelistTermAttributesVersion (termUid : value)
| Call_approveCodelistTermAttributes (termUid : value)
| Call_inactivateCodelistTermAttributes (termUid : value)
| Call_reactivateCodelistTermAttributes (termUid : value)
| Call_deleteCodelistTermAttributes (termUid : value)
| Call_createCodelistTerm (data : value)
| Call_addTermToCodelist (codelistUid termUid : value)
| Call_removeTermFromCodelist (codelistUid termUid : value)
| Call_updateCodelistTermOrder (termUid data : value)
| Call_updateCodelistTermNames (termUid data : value)
| Call_updateCodelistTermAttributes (termUid data : value)
| Call_updateCodelistAttributes (codelistUid data : value)
| Call_createCodelist (data : value)
| Call_getStats.

Definition run (o : operation) : Repo promise :=
  match o with
  | Call_getCatalogues => getCatalogues
  | Call_getPackages params => getPackages params
  | Call_getSponsorPackages => getSponsorPackages
  | Call_getPackagesDates catalogueName => getPackagesDates catalogueName
  | Call_getPackagesChanges catalogueName fromDate toDate => getPackagesChanges catalogueName fromDate toDate
  | Call_getPackagesCodelistChanges codelistUid catalogueName fromDate toDate => getPackagesCodelistChanges codelistUid catalogueName fromDate toDate
  | Call_createSponsorPackage data => createSponsorPackage data
  | Call_getCodelists options => getCodelists options
  | Call_getCodelistNames codelistUid => getCodelistNames codelistUid
  | Call_getCodelistNamesVersions codelistUid => getCodelistNamesVersions codelistUid
  | Call_updateCodelistNames codelistUid data => updateCodelistNames codelistUid data
  | Call_newCodelistNamesVersion codelistUid => newCodelistNamesVersion codelistUid
  | Call_approveCodelistNames codelistUid => approveCodelistNames codelistUid
  | Call_getCodelistAttributes codelistUid => getCodelistAttributes codelistUid
  | Call_getCodelistAttributesVersions codelistUid => getCodelistAttributesVersions codelistUid
  | Call_newCodelistAttributesVersion codelistUid => newCodelistAttributesVersion codelistUid
  | Call_approveCodelistAttributes codelistUid => approveCodelistAttributes codelistUid
  | Call_getCodelistTerms params => getCodelistTerms params
  | Call_getCodelistTermsNames params => getCodelistTermsNames params
  | Call_getCodelistTermNames termUid => getCodelistTermNames termUid
  | Call_getCodelistTermNamesVersions termUid => getCodelistTermNamesVersions termUid
  | Call_newCodelistTermNamesVersion termUid => newCodelistTermNamesVersion termUid
  | Call_approveCodelistTermNames termUid => approveCodelistTermNames termUid
  | Call_inactivateCodelistTermNames termUid => inactivateCodelistTermNames termUid
  | Call_reactivateCodelistTermNames termUid => reactivateCodelistTermNames termUid
  | Call_deleteCodelistTermNames termUid => deleteCodelistTermNames termUid
  | Call_getCodelistTermsAttributes codelistUid options => getCodelistTermsAttributes codelistUid options
  | Call_getCodelistTermAttributes termUid => getCodelistTermAttributes termUid
  | Call_getCodelistTermAttributesVersions termUid => getCodelistTermAttributesVersions termUid
  | Call_newCodelistTermAttributesVersion termUid => newCodelistTermAttributesVersion termUid
  | Call_approveCodelistTermAttributes termUid => approveCodelistTermAttributes termUid
  | Call_inactivateCodelistTermAttributes termUid => inactivateCodelistTermAttributes termUid
  | Call_reactivateCodelistTermAttributes termUid => reactivateCodelistTermAttributes termUid
  | Call_deleteCodelistTermAttributes termUid => deleteCodelistTermAttributes termUid
  | Call_createCodelistTerm data => createCodelistTerm data
  | Call_addTermToCodelist codelistUid termUid => addTermToCodelist codelistUid termUid
  | Call_removeTermFromCodelist codelistUid termUid => removeTermFromCodelist codelistUid termUid
  | Call_updateCodelistTermOrder termUid data => updateCodelistTermOrder termUid data
  | Call_updateCodelistTermNames termUid data => updateCodelistTermNames termUid data
  | Call_updateCodelistTermAttributes termUid data => updateCodelistTermAttributes termUid data
  | Call_updateCodelistAttributes codelistUid data => updateCodelistAttributes codelistUid data
  | Call_createCodelist data => createCodelist data
  | Call_getStats => getStats
  end.


(** The query parameters or the body a call hands to the HTTP client, when
    it hands any. *)
Definition payload (c : http_call) : option value :=
  match call_method c, call_args c with
  | GET, cfg :: _ =>
      match cfg with
      | VObj ms => Some (lookup_member "params" ms)
      | _ => None
      end
  | (POST | PATCH), data :: _ => Some data
  | _, _ => None
  end.



(** *** The endpoints and what a pass-through hands over *)






End ControlledTerminology.

(** ** [stores/studies-general.js] *)

Module StudiesGeneral.
Import JS.

(** *** State *)

Record Store : Type := mk_store {
  selectedStudy : value;
  selectedStudyVersion : value;
  studyPreferredTimeUnit : value;
  soaPreferredTimeUnit : value;
  soaPreferences : value;
  studyTypes : value;
  trialIntentTypes : value;
  trialTypes : value;
  trialPhases : value;
  interventionTypes : value;
  snomedTerms : value;
  sexOfParticipants : value;
  trialBlindingSchemas : value;
  controlTypes : value;
  interventionModels : value;
  units : value;
  nullValues : value;
  objectiveLevels : value;
  endpointLevels : value;
  endpointSubLevels : value;
  allUnits : value
}.

(** [state: () => ({ ... })] *)
Definition state : Store :=
  {| selectedStudy := VNull;
     selectedStudyVersion := VNull;
     studyPreferredTimeUnit := VNull;
     soaPreferredTimeUnit := VNull;
     soaPreferences := VNull;
     studyTypes := VArr [];
     trialIntentTypes := VArr [];
     trialTypes := VArr [];
     trialPhases := VArr [];
     interventionTypes := VArr [];
     snomedTerms := VArr [];
     sexOfParticipants := VArr [];
     trialBlindingSchemas := VArr [];
     controlTypes := VArr [];
     interventionModels := VArr [];
     units := VArr [];
     nullValues := VArr [];
     objectiveLevels := VArr [];
     endpointLevels := VArr [];
     endpointSubLevels := VArr [];
     allUnits := VArr [] |}.

(** The names of the fields, to read and assign [this.f] by name. *)
Inductive field : Type :=
| SelectedStudy | SelectedStudyVersion | StudyPreferredTimeUnit
| SoaPreferredTimeUnit | SoaPreferences | StudyTypes | TrialIntentTypes
| TrialTypes | TrialPhases | InterventionTypes | SnomedTerms
| SexOfParticipants | TrialBlindingSchemas | ControlTypes
| InterventionModels | Units | NullValues | ObjectiveLevels
| EndpointLevels | EndpointSubLevels | AllUnits.

Definition field_eqb (f g : field) : bool :=
  match f, g with
  | SelectedStudy, SelectedStudy
  | SelectedStudyVersion, SelectedStudyVersion
  | StudyPreferredTimeUnit, StudyPreferredTimeUnit
  | SoaPreferredTimeUnit, SoaPreferredTimeUnit
  | SoaPreferences, SoaPreferences
  | StudyTypes, StudyTypes
  | TrialIntentTypes, TrialIntentTypes
  | TrialTypes, TrialTypes
  | TrialPhases, TrialPhases
  | InterventionTypes, InterventionTypes
  | SnomedTerms, SnomedTerms
  | SexOfParticipants, SexOfParticipants
  | TrialBlindingSchemas, TrialBlindingSchemas
  | ControlTypes, ControlTypes
  | InterventionModels, InterventionModels
  | Units, Units
  | NullValues, NullValues
  | ObjectiveLevels, ObjectiveLevels
  | EndpointLevels, EndpointLevels
  | EndpointSubLevels, EndpointSubLevels
  | AllUnits, AllUnits => true
  | _, _ => false
  end.

Definition get (f : field) (st : Store) : value :=
  match f with
  | SelectedStudy => selectedStudy st
  | SelectedStudyVersion => selectedStudyVersion st
  | StudyPreferredTimeUnit => studyPreferredTimeUnit st
  | SoaPreferredTimeUnit => soaPreferredTimeUnit st
  | SoaPreferences => soaPreferences st
  | StudyTypes => studyTypes st
  | TrialIntentTypes => trialIntentTypes st
  | TrialTypes => trialTypes st
  | TrialPhases => trialPhases st
  | InterventionTypes => interventionTypes st
  | SnomedTerms => snomedTerms st
  | SexOfParticipants => sexOfParticipants st
  | TrialBlindingSchemas => trialBlindingSchemas st
  | ControlTypes => controlTypes st
  | InterventionModels => interventionModels st
  | Units => units st
  | NullValues => nullValues st
  | ObjectiveLevels => objectiveLevels st
  | EndpointLevels => endpointLevels st
  | EndpointSubLevels => endpointSubLevels st
  | AllUnits => allUnits st
  end.

(** [this.f = v] *)
Definition set (f : field) (v : value) (st : Store) : Store :=
  let new g := if field_eqb f g then v else get g st in
  {| selectedStudy := new SelectedStudy;
     selectedStudyVersion := new SelectedStudyVersion;
     studyPreferredTimeUnit := new StudyPreferredTimeUnit;
     soaPreferredTimeUnit := new SoaPreferredTimeUnit;
     soaPreferences := new SoaPreferences;
     studyTypes := new StudyTypes;
     trialIntentTypes := new TrialIntentTypes;
     trialTypes := new TrialTypes;
     trialPhases := new TrialPhases;
     interventionTypes := new InterventionTypes;
     snomedTerms := new SnomedTerms;
     sexOfParticipants := new SexOfParticipants;
     trialBlindingSchemas := new TrialBlindingSchemas;
     controlTypes := new ControlTypes;
     interventionModels := new InterventionModels;
     units := new Units;
     nullValues := new NullValues;
     objectiveLevels := new ObjectiveLevels;
     endpointLevels := new EndpointLevels;
     endpointSubLevels := new EndpointSubLevels;
     allUnits := new AllUnits |}.

(** *** Getters *)

(** [(a, b) => a.order - b.order] *)
Definition by_order : ArraySort.comparator :=
  fun a b =>
    bind (get_prop a "order") (fun x =>
    bind (get_prop b "order") (fun y =>
    Ok (Num.minus x y))).

(** [state.f.sort((a, b) => a.order - b.order)].  [sort] reorders the
    array it is called on and returns that same array, so the getter's
    result and the field are one object: the new content of the field is
    the returned array.  Only arrays have a [sort] method; when the
    comparator throws, the array is taken to be as it was. *)
Definition sorted_levels (f : field) (st : Store) : result value * Store :=
  match get f st with
  | VArr l =>
      match ArraySort.sort by_order l with
      | Ok l' => (Ok (VArr l'), set f (VArr l') st)
      | Throw e => (Throw e, st)
      end
  | _ => (Throw TypeError, st)
  end.

(** [sortedObjectiveLevels: (state) => state.objectiveLevels.sort(...)] *)
Definition sortedObjectiveLevels (st : Store) : result value * Store :=
  sorted_levels ObjectiveLevels st.

(** [sortedEndpointLevels: (state) => state.endpointLevels.sort(...)] *)
Definition sortedEndpointLevels (st : Store) : result value * Store :=
  sorted_levels EndpointLevels st.

(** The [order] of an element that carries a numeric one. *)
Definition order_of (v : value) : option Z :=
  match get_prop v "order" with
  | Ok (VNum n) => Some n
  | _ => None
  end.

Definition numeric_order (v : value) : Prop :=
  exists n, get_prop v "order" = Ok (VNum n).

(** [a] may stand before [b] in non-decreasing [order]. *)
Definition le_order (a b : value) : Prop :=
  match order_of a, order_of b with
  | Some x, Some y => x <= y
  | _, _ => False
  end.

(** [{order: n}] *)
Definition level (n : Z) : value := VObj [("order", VNum n)].

(** The element carries the numeric [order] [k]. *)
Definition order_is (k : Z) (v : value) : bool :=
  match order_of v with
  | Some n => Z.eqb n k
  | None => false
  end.

(** A study as the back end returns it. *)
Definition fixture_study (identification : list (string * value)) : value :=
  VObj [("uid", VStr "Study_000001");
        ("current_metadata",
         VObj [("identification_metadata", VObj identification);
               ("version_metadata", VObj [("version_number", VNum 2)])])].

(** [state.selectedStudy.current_metadata.identification_metadata] *)
Definition identification_metadata (st : Store) : result value :=
  get_path (selectedStudy st) ["current_metadata"; "identification_metadata"].

Definition studyId (st : Store) : result value :=
  bind (identification_metadata st) (fun im =>
  bind (get_prop im "study_number") (fun studyNumber =>
    match studyNumber with
    | VUndefined | VNull =>
        bind (identification_metadata st) (fun im' => get_prop im' "study_acronym")
    | _ =>
        bind (identification_metadata st) (fun im' => get_prop im' "study_id")
    end)).

(** *** The world around the store *)

(** The calls the store makes on the resource clients [units], [terms],
    [dictionaries] and [study].  Each returns a promise that the
    environment settles later. *)
Inductive api_call : Type :=
| units_getBySubset (subset : value)
| units_get (options : value)
| terms_getNamesByCodelist (name : value)
| terms_getByCodelist (name : value)
| dictionaries_getCodelists (name : value)
| dictionaries_getTerms (params : value)
| study_getStudy (uid flag : value)
| study_getStudyPreferredTimeUnit (uid : value)
| study_getSoAPreferredTimeUnit (uid : value)
| study_getSoAPreferences (uid : value)
| study_updateStudyPreferredTimeUnit (uid data protocolSoa : value)
| study_updateSoaPreferences (uid data : value).

Inductive outcome : Type :=
| Fulfilled (v : value)
| Rejected (e : exn).

(** What the code attached to the promise of a call.  [ThenAssignItems],
    [ThenAssignData] and [ThenSnomedTerms] are [.then] callbacks whose
    derived promise the code drops; the derived promise of [ThenTimeUnit]
    and [ThenSoaPreferences] is returned to the caller of the action;
    [AwaitGetStudy] is the [await] inside the [try] of [initialize]. *)
Inductive reaction : Type :=
| ThenAssignItems (f : field)
| ThenAssignData (f : field)
| ThenSnomedTerms
| ThenTimeUnit (protocolSoa : value)
| ThenSoaPreferences
| AwaitGetStudy.

Record World : Type := mk_world {
  store : Store;
  localStorage : gmap string string;
  calls : list api_call;
  pending : gmap nat reaction;
  settled : gmap nat outcome;
  unhandled : list exn;
  reloads : nat
}.

Definition with_store (st : Store) (w : World) : World :=
  mk_world st (localStorage w) (calls w) (pending w) (settled w) (unhandled w) (reloads w).

Definition with_localStorage (ls : gmap string string) (w : World) : World :=
  mk_world (store w) ls (calls w) (pending w) (settled w) (unhandled w) (reloads w).

Definition assign (f : field) (v : value) (w : World) : World :=
  with_store (set f v (store w)) w.

(** Call number [n] is the [n]-th entry of [calls]; [pending] holds the
    reaction of each call not yet answered. *)
Definition request (c : api_call) (r : reaction) (w : World) : nat * World :=
  let id := List.length (calls w) in
  (id, mk_world (store w) (localStorage w) (calls w ++ [c])
         (<[id := r]> (pending w)) (settled w) (unhandled w) (reloads w)).

(** The promise a reaction produced settles with [o].  A rejection of a
    promise nobody holds is an unhandled rejection. *)
Definition settle (id : nat) (dropped : bool) (o : outcome) (w : World) : World :=
  mk_world (store w) (localStorage w) (calls w) (pending w)
    (<[id := o]> (settled w))
    (match o with
     | Rejected e => if dropped then unhandled w ++ [e] else unhandled w
     | Fulfilled _ => unhandled w
     end)
    (reloads w).

(** What an action hands to its caller: [undefined], or a promise that is
    either settled already or settles when the reaction of call [id] has
    run. *)
Inductive promise : Type :=
| Settled (o : outcome)
| After (id : nat).

Inductive returned : Type :=
| RetUndefined
| RetPromise (p : promise).

(** What [await r] gives in world [w], when it gives anything yet. *)
Definition awaited (r : returned) (w : World) : option outcome :=
  match r with
  | RetUndefined => Some (Fulfilled VUndefined)
  | RetPromise (Settled o) => Some o
  | RetPromise (After id) => settled w !! id
  end.

(** *** Actions *)

Definition unselectStudy (w : World) : World :=
  let w := assign SelectedStudy VNull w in
  with_localStorage (delete "selectedStudy" (localStorage w)) w.

(** [String(JSON.stringify(v))], the text [setItem] stores. *)
Definition persisted_text (v : value) : string :=
  match JSON.stringify v with
  | Some s => s
  | None => "undefined"
  end.

(** [study.get...(studyObj.uid).then((resp) => { this.f = resp.data })] *)
Definition fetch_preference (studyObj : value) (call : value -> api_call) (f : field)
  (w : World) : result unit * World :=
  match get_prop studyObj "uid" with
  | Ok uid => (Ok tt, snd (request (call uid) (ThenAssignData f) w))
  | Throw e => (Throw e, w)
  end.

Definition selectStudy (studyObj forceReload : value) (w : World)
  : result unit * World :=
  let w := assign SelectedStudy studyObj w in
  match get_path studyObj ["current_metadata"; "version_metadata"; "version_number"] with
  | Throw e => (Throw e, w)
  | Ok version_number =>
      let w := assign SelectedStudyVersion version_number w in
      let w :=
        with_localStorage
          (<["selectedStudy" := persisted_text studyObj]> (localStorage w)) w in
      let w :=
        if truthy forceReload
        then mk_world (store w) (localStorage w) (calls w) (pending w)
               (settled w) (unhandled w) (S (reloads w))
        else w in
      match fetch_preference studyObj study_getStudyPreferredTimeUnit
              StudyPreferredTimeUnit w with
      | (Throw e, w) => (Throw e, w)
      | (Ok _, w) =>
          match fetch_preference studyObj study_getSoAPreferredTimeUnit
                  SoaPreferredTimeUnit w with
          | (Throw e, w) => (Throw e, w)
          | (Ok _, w) =>
              fetch_preference studyObj study_getSoAPreferences SoaPreferences w
          end
      end
  end.

(** An [async] function: it always returns a promise, and an exception
    before the [await] rejects that promise. *)
Definition initialize (w : World) : returned * World :=
  match localStorage w !! "selectedStudy" with
  | None => (RetPromise (Settled (Fulfilled VUndefined)), w)
  | Some text =>
      if truthy (VStr text) then
        match JSON.parse_text text with
        | None => (RetPromise (Settled (Rejected SyntaxError)), w)
        | Some parsedStudy =>
            match selectStudy parsedStudy VUndefined w with
            | (Throw e, w) => (RetPromise (Settled (Rejected e)), w)
            | (Ok _, w) =>
                match get_prop parsedStudy "uid" with
                | Ok uid =>
                    let (id, w) := request (study_getStudy uid (VBool true)) AwaitGetStudy w in
                    (RetPromise (After id), w)
                | Throw _ =>
                    (RetPromise (Settled (Fulfilled VUndefined)), unselectStudy w)
                end
            end
        end
      else (RetPromise (Settled (Fulfilled VUndefined)), w)
  end.

Definition setStudyPreferredTimeUnit (arg : value) (w : World)
  : result returned * World :=
  match get_prop arg "timeUnitUid" with
  | Throw e => (Throw e, w)
  | Ok timeUnitUid =>
      match get_prop arg "protocolSoa" with
      | Throw e => (Throw e, w)
      | Ok protocolSoa =>
          let data := VObj [("unit_definition_uid", timeUnitUid)] in
          match get_prop (selectedStudy (store w)) "uid" with
          | Throw e => (Throw e, w)
          | Ok uid =>
              let (id, w) :=
                request (study_updateStudyPreferredTimeUnit uid data protocolSoa)
                  (ThenTimeUnit protocolSoa) w in
              (Ok (RetPromise (After id)), w)
          end
      end
  end.

Definition setSoaPreferences (arg : value) (w : World) : result returned * World :=
  match get_prop arg "show_epochs" with
  | Throw e => (Throw e, w)
  | Ok show_epochs =>
      match get_prop arg "show_milestones" with
      | Throw e => (Throw e, w)
      | Ok show_milestones =>
          match get_prop arg "baseline_as_time_zero" with
          | Throw e => (Throw e, w)
          | Ok baseline_as_time_zero =>
              match get_prop (selectedStudy (store w)) "uid" with
              | Throw e => (Throw e, w)
              | Ok uid =>
                  let data := VObj [("show_epochs", show_epochs);
                                    ("show_milestones", show_milestones);
                                    ("baseline_as_time_zero", baseline_as_time_zero)] in
                  let (id, w) :=
                    request (study_updateSoaPreferences uid data) ThenSoaPreferences w in
                  (Ok (RetPromise (After id)), w)
              end
          end
      end
  end.

(** [api(...).then((resp) => { this.f = resp.data.items })] with no
    [return]: the action hands [undefined] to its caller. *)
Definition fetch_items (c : api_call) (f : field) (w : World) : returned * World :=
  (RetUndefined, snd (request c (ThenAssignItems f) w)).

Definition fetchUnits : World -> returned * World :=
  fetch_items (units_getBySubset (VStr "Study Time")) Units.

Definition fetchAllUnits : World -> returned * World :=
  fetch_items (units_get (VObj [("params", VObj [("page_size", VNum 0)])])) AllUnits.

Definition fetchStudyTypes : World -> returned * World :=
  fetch_items (terms_getNamesByCodelist (VStr "studyType")) StudyTypes.

Definition fetchTrialIntentTypes : World -> returned * World :=
  fetch_items (terms_getNamesByCodelist (VStr "trialIntentType")) TrialIntentTypes.

Definition fetchTrialTypes : World -> returned * World :=
  fetch_items (terms_getNamesByCodelist (VStr "trialType")) TrialTypes.

Definition fetchTrialPhases : World -> returned * World :=
  fetch_items (terms_getNamesByCodelist (VStr "trialPhase")) TrialPhases.

Definition fetchInterventionTypes : World -> returned * World :=
  fetch_items (terms_getNamesByCodelist (VStr "interventionTypes")) InterventionTypes.

Definition fetchSnomedTerms (w : World) : returned * World :=
  (RetUndefined, snd (request (dictionaries_getCodelists (VStr "SNOMED")) ThenSnomedTerms w)).

Definition fetchSexOfParticipants : World -> returned * World :=
  fetch_items (terms_getNamesByCodelist (VStr "sexOfParticipants")) SexOfParticipants.

Definition fetchTrialBlindingSchemas : World -> returned * World :=
  fetch_items (terms_getNamesByCodelist (VStr "trialBlindingSchema")) TrialBlindingSchemas.

Definition fetchControlTypes : World -> returned * World :=
  fetch_items (terms_getNamesByCodelist (VStr "controlType")) ControlTypes.

Definition fetchInterventionModels : World -> returned * World :=
  fetch_items (terms_getNamesByCodelist (VStr "interventionModel")) InterventionModels.

Definition fetchNullValues : World -> returned * World :=
  fetch_items (terms_getByCodelist (VStr "nullValues")) NullValues.

Definition fetchObjectiveLevels : World -> returned * World :=
  fetch_items (terms_getNamesByCodelist (VStr "objectiveLevels")) ObjectiveLevels.

Definition fetchEndpointLevels : World -> returned * World :=
  fetch_items (terms_getNamesByCodelist (VStr "endpointLevels")) EndpointLevels.

Definition fetchEndpointSubLevels : World -> returned * World :=
  fetch_items (terms_getNamesByCodelist (VStr "endpointSubLevels")) EndpointSubLevels.

(** *** Reactions *)

(** The body of the outer callback of [fetchSnomedTerms]. *)
Definition snomed_params (resp : value) : result value :=
  bind (get_path resp ["data"; "items"]) (fun items =>
  bind (get_index items 0) (fun first =>
  bind (get_prop first "codelist_uid") (fun codelist_uid =>
    Ok (VObj [("codelist_uid", codelist_uid);
              ("page_size", VNum 0);
              ("sort_by", match JSON.stringify (VObj [("name", VBool true)]) with
                          | Some text => VStr text
                          | None => VUndefined
                          end)])))).

(** The reaction [r] of call [id] runs on the outcome [o] of the call. *)
Definition react (r : reaction) (id : nat) (o : outcome) (w : World) : World :=
  match r, o with
  | ThenAssignItems f, Fulfilled resp =>
      match get_path resp ["data"; "items"] with
      | Ok items => settle id true (Fulfilled VUndefined) (assign f items w)
      | Throw e => settle id true (Rejected e) w
      end
  | ThenAssignData f, Fulfilled resp =>
      match get_prop resp "data" with
      | Ok data => settle id true (Fulfilled VUndefined) (assign f data w)
      | Throw e => settle id true (Rejected e) w
      end
  | ThenSnomedTerms, Fulfilled resp =>
      match snomed_params resp with
      | Ok params =>
          settle id true (Fulfilled VUndefined)
            (snd (request (dictionaries_getTerms params) (ThenAssignItems SnomedTerms) w))
      | Throw e => settle id true (Rejected e) w
      end
  | ThenTimeUnit protocolSoa, Fulfilled resp =>
      match get_prop resp "data" with
      | Ok data =>
          settle id false (Fulfilled VUndefined)
            (assign (if truthy protocolSoa then SoaPreferredTimeUnit
                     else StudyPreferredTimeUnit) data w)
      | Throw e => settle id false (Rejected e) w
      end
  | ThenSoaPreferences, Fulfilled resp =>
      match get_prop resp "data" with
      | Ok data => settle id false (Fulfilled VUndefined) (assign SoaPreferences data w)
      | Throw e => settle id false (Rejected e) w
      end
  | AwaitGetStudy, Fulfilled _ => settle id false (Fulfilled VUndefined) w
  | AwaitGetStudy, Rejected _ =>
      settle id false (Fulfilled VUndefined) (unselectStudy w)
  | (ThenAssignItems _ | ThenAssignData _ | ThenSnomedTerms), Rejected e =>
      settle id true (Rejected e) w
  | (ThenTimeUnit _ | ThenSoaPreferences), Rejected e =>
      settle id false (Rejected e) w
  end.

(** The environment answers call [id] with [o]; [None] when that call is
    not awaiting an answer. *)
Definition respond (id : nat) (o : outcome) (w : World) : option World :=
  match pending w !! id with
  | Some r =>
      Some (react r id o
              (mk_world (store w) (localStorage w) (calls w)
                 (delete id (pending w)) (settled w) (unhandled w) (reloads w)))
  | None => None
  end.

(** Answers delivered one after the other; an answer to a call that is not
    pending changes nothing. *)
Fixpoint deliver (answers : list (nat * outcome)) (w : World) : World :=
  match answers with
  | [] => w
  | (id, o) :: rest =>
      deliver rest (match respond id o w with Some w' => w' | None => w end)
  end.

(** The single-call fetch actions, one per reference collection. *)
Inductive fetch_action : Type :=
| FetchUnits | FetchAllUnits | FetchStudyTypes | FetchTrialIntentTypes
| FetchTrialTypes | FetchTrialPhases | FetchInterventionTypes
| FetchSexOfParticipants | FetchTrialBlindingSchemas | FetchControlTypes
| FetchInterventionModels | FetchNullValues | FetchObjectiveLevels
| FetchEndpointLevels | FetchEndpointSubLevels.

Definition run_fetch (a : fetch_action) : World -> returned * World :=
  match a with
  | FetchUnits => fetchUnits
  | FetchAllUnits => fetchAllUnits
  | FetchStudyTypes => fetchStudyTypes
  | FetchTrialIntentTypes => fetchTrialIntentTypes
  | FetchTrialTypes => fetchTrialTypes
  | FetchTrialPhases => fetchTrialPhases
  | FetchInterventionTypes => fetchInterventionTypes
  | FetchSexOfParticipants => fetchSexOfParticipants
  | FetchTrialBlindingSchemas => fetchTrialBlindingSchemas
  | FetchControlTypes => fetchControlTypes
  | FetchInterventionModels => fetchInterventionModels
  | FetchNullValues => fetchNullValues
  | FetchObjectiveLevels => fetchObjectiveLevels
  | FetchEndpointLevels => fetchEndpointLevels
  | FetchEndpointSubLevels => fetchEndpointSubLevels
  end.

(** The field each fetch action assigns. *)
Definition fetch_field (a : fetch_action) : field :=
  match a with
  | FetchUnits => Units
  | FetchAllUnits => AllUnits
  | FetchStudyTypes => StudyTypes
  | FetchTrialIntentTypes => TrialIntentTypes
  | FetchTrialTypes => TrialTypes
  | FetchTrialPhases => TrialPhases
  | FetchInterventionTypes => InterventionTypes
  | FetchSexOfParticipants => SexOfParticipants
  | FetchTrialBlindingSchemas => TrialBlindingSchemas
  | FetchControlTypes => ControlTypes
  | FetchInterventionModels => InterventionModels
  | FetchNullValues => NullValues
  | FetchObjectiveLevels => ObjectiveLevels
  | FetchEndpointLevels => EndpointLevels
  | FetchEndpointSubLevels => EndpointSubLevels
  end.

(** A fresh session: the initial state, empty storage, nothing issued. *)
Definition boot : World :=
  mk_world state ∅ [] ∅ ∅ [] 0.

(** The text [{"name":true}]. *)
Definition sort_by_name : string :=
  String "{" (String JSON.dquote
    (String.append "name" (String JSON.dquote ":true}"))).

(** Call [id] has been issued and awaits its answer with reaction [r]. *)
Definition awaiting (id : nat) (r : reaction) (w : World) : Prop :=
  pending w !! id = Some r /\ (id < List.length (calls w))%nat.

End StudiesGeneral.

(** * Properties *)

(** ** The run time *)

Section RunTime.
Import JS JSON.

Lemma parse_str_quote_char (c : ascii) (tail : list ascii) :
  parse_str (quote_char c ++ tail) = cons_char c (parse_str tail).
Proof.
  destruct c as [[|] [|] [|] [|] [|] [|] [|] [|]]; reflexivity.
Qed.

Lemma cons_char_some c str (rest : list ascii) :
  cons_char c (Some (str, rest)) = Some (String c str, rest).
Proof. reflexivity. Qed.

(** A quoted string reads back as the string. *)
Lemma parse_str_quote (s : string) (rest : list ascii) :
  parse_str (flat_map quote_char (chars s) ++ dquote :: rest) = Some (s, rest).
Proof.
  induction s as [|c s IH]; [reflexivity|].
  change (chars (String c s)) with (c :: chars s).
  cbn [flat_map]. rewrite <- app_assoc, parse_str_quote_char, IH.
  reflexivity.
Qed.

Lemma quote_app (s : string) (rest : list ascii) :
  quote s ++ rest = dquote :: flat_map quote_char (chars s) ++ dquote :: rest.
Proof. unfold quote. cbn [app]. now rewrite <- app_assoc. Qed.

Lemma take_digits_uint (d : Decimal.uint) (rest : list ascii) :
  delimited rest ->
  take_digits (chars (NilEmpty.string_of_uint d) ++ rest) = (d, rest).
Proof.
  intros Hrest.
  induction d; cbn [NilEmpty.string_of_uint];
    try (change (chars (String ?c ?s)) with (c :: chars s));
    try (cbn [app take_digits]; rewrite IHd; reflexivity).
  cbn. destruct rest as [|c r]; [reflexivity|].
  cbn. destruct Hrest as [-> _]. reflexivity.
Qed.

Lemma unorm_to_uint (p : positive) : Decimal.unorm (Pos.to_uint p) = Pos.to_uint p.
Proof.
  rewrite <- DecimalPos.Unsigned.to_of, DecimalPos.Unsigned.of_to.
  reflexivity.
Qed.

Lemma uint_eqb_refl (d : Decimal.uint) : uint_eqb d d = true.
Proof. unfold uint_eqb. destruct (Decimal.uint_eq_dec d d); congruence. Qed.

Lemma number_tail (z : Z) (rest : list ascii) :
  delimited rest ->
  match rest with
  | [] => Some (VNum z, rest)
  | c :: _ =>
      if Ascii.eqb c "." || Ascii.eqb c "e" || Ascii.eqb c "E" then None
      else Some (VNum z, rest)
  end = Some (VNum z, rest).
Proof.
  destruct rest as [|c r]; [reflexivity|]. intros [_ ->]. reflexivity.
Qed.

Lemma parse_number_unsigned (d : Decimal.uint) (rest : list ascii) :
  Decimal.unorm d = d -> delimited rest ->
  parse_number (chars (NilEmpty.string_of_uint d) ++ rest)
  = Some (VNum (Z.of_uint d), rest).
Proof.
  intros Hnorm Hrest.
  assert (Hd : d <> Decimal.Nil) by (rewrite <- Hnorm; apply unorm_nonnil).
  pose proof (take_digits_uint d rest Hrest) as Htake.
  unfold parse_number.
  destruct d; try congruence;
    cbn [NilEmpty.string_of_uint] in *;
    change (chars (String ?c ?s)) with (c :: chars s) in *;
    cbn [app] in *; cbn [Ascii.eqb Bool.eqb];
    rewrite Htake, Hnorm, uint_eqb_refl; apply number_tail, Hrest.
Qed.

Lemma parse_number_negative (d : Decimal.uint) (rest : list ascii) :
  Decimal.unorm d = d -> delimited rest ->
  parse_number ("-"%char :: chars (NilEmpty.string_of_uint d) ++ rest)
  = Some (VNum (- Z.of_uint d), rest).
Proof.
  intros Hnorm Hrest. unfold parse_number. cbn [Ascii.eqb Bool.eqb].
  rewrite (take_digits_uint d rest Hrest), Hnorm, uint_eqb_refl.
  apply number_tail, Hrest.
Qed.

Lemma string_of_uint_nonnil (d : Decimal.uint) :
  d <> Decimal.Nil -> NilZero.string_of_uint d = NilEmpty.string_of_uint d.
Proof. destruct d; congruence || reflexivity. Qed.

(** The decimal spelling of an integer reads back as the integer. *)
Lemma parse_number_print (n : Z) (rest : list ascii) :
  delimited rest ->
  parse_number (chars (string_of_Z n) ++ rest) = Some (VNum n, rest).
Proof.
  intros Hrest. unfold string_of_Z.
  destruct n as [|p|p]; cbn [Z.to_int NilZero.string_of_int].
  - apply (parse_number_unsigned (Decimal.D0 Decimal.Nil) rest eq_refl Hrest).
  - rewrite string_of_uint_nonnil by apply DecimalPos.Unsigned.to_uint_nonnil.
    rewrite parse_number_unsigned by (apply unorm_to_uint || assumption).
    do 3 f_equal. apply (DecimalZ.of_to (Z.pos p)).
  - rewrite string_of_uint_nonnil by apply DecimalPos.Unsigned.to_uint_nonnil.
    change (chars (String ?c ?s)) with (c :: chars s). cbn [app].
    rewrite parse_number_negative by (apply unorm_to_uint || assumption).
    do 3 f_equal. apply (DecimalZ.of_to (Z.neg p)).
Qed.

(** **** Character classes *)

Lemma num_start_value_start (c : ascii) : num_start c = true -> value_start c = true.
Proof.
  destruct c as [[|] [|] [|] [|] [|] [|] [|] [|]]; intros H;
    solve [reflexivity | discriminate H].
Qed.

Lemma parse_value_number (fuel : nat) (c : ascii) (t : list ascii) :
  num_start c = true -> parse (S fuel) MValue (c :: t) = parse_number (c :: t).
Proof.
  destruct c as [[|] [|] [|] [|] [|] [|] [|] [|]]; intros H;
    solve [reflexivity | discriminate H].
Qed.

Lemma parse_value_string (fuel : nat) (t : list ascii) :
  parse (S fuel) MValue (dquote :: t)
  = match parse_str t with
    | Some (str, r') => Some (VStr str, r')
    | None => None
    end.
Proof. reflexivity. Qed.

Lemma skip_ws_value_start (c : ascii) (t : list ascii) :
  value_start c = true -> skip_ws (c :: t) = c :: t.
Proof.
  unfold value_start. cbn [skip_ws]. destruct (is_ws c); [discriminate|reflexivity].
Qed.

Lemma parse_value_array (fuel : nat) (c : ascii) (t : list ascii) :
  value_start c = true ->
  parse (S fuel) MValue ("["%char :: c :: t) = parse fuel (MElems []) (c :: t).
Proof.
  intros H. cbn [parse]. 
  change (skip_ws ("["%char :: c :: t)) with ("["%char :: c :: t).
  cbv iota beta. change (Ascii.eqb "[" dquote) with false.
  change (Ascii.eqb "[" "[") with true. cbv iota.
  rewrite (skip_ws_value_start c t H).
  unfold value_start in H. destruct (Ascii.eqb c "]"); [|reflexivity].
  rewrite andb_false_r in H. discriminate.
Qed.

Lemma parse_value_object (fuel : nat) (t : list ascii) :
  parse (S fuel) MValue ("{"%char :: dquote :: t)
  = parse fuel (MMembers []) (dquote :: t).
Proof. reflexivity. Qed.

Lemma number_head (n : Z) :
  exists c r, chars (string_of_Z n) = c :: r /\ num_start c = true.
Proof.
  unfold string_of_Z.
  assert (H : forall d, d <> Decimal.Nil -> exists c r,
             chars (NilEmpty.string_of_uint d) = c :: r /\ num_start c = true).
  { intros d Hd. destruct d; try congruence; cbn [NilEmpty.string_of_uint];
      eexists _, _; (split; [reflexivity|reflexivity]). }
  destruct n as [|p|p]; cbn [Z.to_int NilZero.string_of_int].
  - eexists _, _. split; reflexivity.
  - rewrite string_of_uint_nonnil by apply DecimalPos.Unsigned.to_uint_nonnil.
    apply H, DecimalPos.Unsigned.to_uint_nonnil.
  - eexists _, _. split; reflexivity.
Qed.

(** The text of a JSON document starts with a character that is neither
    white space nor a closing bracket. *)
Lemma print_head (v : value) :
  is_json v = true -> exists c r, print v = c :: r /\ value_start c = true.
Proof.
  destruct v as [| |[|]|n|s|l|ms]; cbn [is_json print]; intros H;
    try discriminate H;
    try (eexists _, _; split; reflexivity).
  destruct (number_head n) as (c & r & -> & Hc).
  eauto using num_start_value_start.
Qed.

(** **** Objects and arrays *)

Lemma print_array (l : list value) :
  forallb is_json l = true ->
  print (VArr l) = "["%char :: commas (map print l) ++ ["]"%char].
Proof.
  intros H. cbn [print]. do 3 f_equal. apply map_ext_in.
  intros e He. rewrite forallb_forall in H. specialize (H e He).
  destruct e; try reflexivity. discriminate H.
Qed.

Lemma print_object (ms : list (string * value)) :
  forallb (fun m => is_json (snd m)) ms = true ->
  print (VObj ms) = "{"%char :: commas (map member_text ms) ++ ["}"%char].
Proof.
  intros H. cbn [print]. do 3 f_equal.
  induction ms as [|[k v] ms IH]; [reflexivity|].
  cbn [forallb snd] in H. apply andb_prop in H as [Hv Hms].
  cbn [map somes snd fst]. destruct v; try discriminate Hv;
    cbn [somes]; rewrite IH by assumption; reflexivity.
Qed.

Lemma distinct_app_fresh (xs ys : list string) (k : string) :
  distinct (xs ++ k :: ys) = true -> existsb (String.eqb k) xs = false.
Proof.
  induction xs as [|x xs IH]; [reflexivity|].
  cbn [app distinct existsb]. intros H. apply andb_prop in H as [Hx Hxs].
  rewrite (IH Hxs), orb_false_r.
  rewrite existsb_app in Hx. cbn [existsb] in Hx.
  rewrite String.eqb_sym.
  destruct (String.eqb x k); [|reflexivity].
  rewrite orb_true_r in Hx. discriminate Hx.
Qed.

Lemma set_member_fresh (k : string) (v : value) (acc : list (string * value)) :
  existsb (String.eqb k) (map fst acc) = false ->
  set_member k v acc = acc ++ [(k, v)].
Proof.
  induction acc as [|[k' v'] acc IH]; [reflexivity|].
  cbn [map fst existsb set_member app]. intros H.
  apply orb_false_elim in H as [-> H]. now rewrite IH.
Qed.

Lemma delimited_comma (t : list ascii) : delimited (","%char :: t).
Proof. split; reflexivity. Qed.

Lemma delimited_bracket (t : list ascii) : delimited ("]"%char :: t).
Proof. split; reflexivity. Qed.

Lemma delimited_brace (t : list ascii) : delimited ("}"%char :: t).
Proof. split; reflexivity. Qed.

Lemma commas_cons (p : list ascii) (q : list ascii) (ps : list (list ascii)) (t : list ascii) :
  commas (p :: q :: ps) ++ t = p ++ ","%char :: commas (q :: ps) ++ t.
Proof. cbn [commas]. now rewrite <- app_assoc. Qed.

Lemma commas_one (p : list ascii) (t : list ascii) : commas [p] ++ t = p ++ t.
Proof. reflexivity. Qed.

Lemma parse_elems_step (fuel : nat) (acc : list value) (v : value) (s t : list ascii) :
  parse fuel MValue s = Some (v, ","%char :: t) ->
  parse (S fuel) (MElems acc) s = parse fuel (MElems (acc ++ [v])) t.
Proof. intros H. cbn [parse]. rewrite H. reflexivity. Qed.

Lemma parse_elems_last (fuel : nat) (acc : list value) (v : value) (s t : list ascii) :
  parse fuel MValue s = Some (v, "]"%char :: t) ->
  parse (S fuel) (MElems acc) s = Some (VArr (acc ++ [v]), t).
Proof. intros H. cbn [parse]. rewrite H. reflexivity. Qed.

Lemma parse_members_step (fuel : nat) (acc : list (string * value)) (k : string)
    (v : value) (s t : list ascii) :
  parse fuel MValue s = Some (v, ","%char :: t) ->
  parse (S fuel) (MMembers acc) (quote k ++ ":"%char :: s)
  = parse fuel (MMembers (set_member k v acc)) t.
Proof.
  intros H. rewrite quote_app. cbn [parse].
  change (skip_ws (dquote :: ?x)) with (dquote :: x). cbv iota beta.
  change (Ascii.eqb dquote dquote) with true. cbv iota.
  rewrite parse_str_quote.
  change (skip_ws (":"%char :: s)) with (":"%char :: s). cbv iota beta.
  change (Ascii.eqb ":" ":") with true. cbv iota.
  rewrite H. reflexivity.
Qed.

Lemma parse_members_last (fuel : nat) (acc : list (string * value)) (k : string)
    (v : value) (s t : list ascii) :
  parse fuel MValue s = Some (v, "}"%char :: t) ->
  parse (S fuel) (MMembers acc) (quote k ++ ":"%char :: s)
  = Some (VObj (set_member k v acc), t).
Proof.
  intros H. rewrite quote_app. cbn [parse].
  change (skip_ws (dquote :: ?x)) with (dquote :: x). cbv iota beta.
  change (Ascii.eqb dquote dquote) with true. cbv iota.
  rewrite parse_str_quote.
  change (skip_ws (":"%char :: s)) with (":"%char :: s). cbv iota beta.
  change (Ascii.eqb ":" ":") with true. cbv iota.
  rewrite H. reflexivity.
Qed.

Ltac weigh :=
  unfold weight, id, list_sum in *; cbn [map fold_right snd size] in *.

Lemma reads_elems_S (fuel : nat) :
  reads_value fuel -> reads_elems fuel -> reads_elems (S fuel).
Proof.
  intros HV HE l acc rest Hne Hjson Hw.
  destruct l as [|v l]; [congruence|]. clear Hne.
  cbn [forallb] in Hjson. apply andb_prop in Hjson as [Hv Hl].
  weigh.
  destruct l as [|v' l].
  - cbn [map]. rewrite commas_one.
    apply parse_elems_last, HV; [assumption|weigh; lia|apply delimited_bracket].
  - cbn [map]. rewrite commas_cons.
    erewrite parse_elems_step
      by (apply HV; [assumption|weigh; lia|apply delimited_comma]).
    change (commas (print v' :: map print l)) with (commas (map print (v' :: l))).
    rewrite HE; [now rewrite <- app_assoc|congruence|assumption|].
    weigh; lia.
Qed.

Lemma reads_members_S (fuel : nat) :
  reads_value fuel -> reads_members fuel -> reads_members (S fuel).
Proof.
  intros HV HM ms acc rest Hne Hjson Hkeys Hw.
  destruct ms as [|[k v] ms]; [congruence|]. clear Hne.
  cbn [forallb snd] in Hjson. apply andb_prop in Hjson as [Hv Hms].
  weigh.
  assert (Hfresh : set_member k v acc = acc ++ [(k, v)]).
  { apply set_member_fresh. rewrite map_app in Hkeys. cbn [map fst] in Hkeys.
    eapply distinct_app_fresh, Hkeys. }
  destruct ms as [|m ms].
  - cbn [map]. rewrite commas_one. unfold member_text at 1. cbn [fst snd].
    rewrite <- app_assoc. cbn [app].
    erewrite parse_members_last
      by (apply HV; [assumption|weigh; lia|apply delimited_brace]).
    now rewrite Hfresh.
  - cbn [map]. rewrite commas_cons. unfold member_text at 1. cbn [fst snd].
    rewrite <- app_assoc. cbn [app].
    erewrite parse_members_step
      by (apply HV; [assumption|weigh; lia|apply delimited_comma]).
    change (commas (member_text m :: map member_text ms))
      with (commas (map member_text (m :: ms))).
    rewrite Hfresh, HM; [now rewrite <- app_assoc|congruence|assumption| |].
    + now rewrite <- app_assoc.
    + weigh; lia.
Qed.

Lemma reads_value_S (fuel : nat) :
  reads_elems fuel -> reads_members fuel -> reads_value (S fuel).
Proof.
  intros HE HM v rest Hjson Hsize Hrest.
  destruct v as [| |[|]|n|s|l|ms]; try discriminate Hjson; try reflexivity.
  - destruct (number_head n) as (c & r & Hc & Hstart).
    cbn [print]. pose proof (parse_number_print n rest Hrest) as Hn.
    rewrite Hc in *. cbn [app] in *.
    now rewrite parse_value_number.
  - cbn [print]. rewrite quote_app, parse_value_string, parse_str_quote.
    reflexivity.
  - cbn [is_json] in Hjson. rewrite (print_array l Hjson).
    destruct l as [|v l]; [reflexivity|].
    cbn [size] in Hsize. cbn [app]. rewrite <- app_assoc. cbn [app].
    assert (Hv : is_json v = true)
      by (cbn [forallb] in Hjson; now apply andb_prop in Hjson).
    destruct (print_head v Hv) as (c & r & Hc & Hstart).
    pose proof (HE (v :: l) [] rest) as H.
    destruct l as [|v' l]; cbn [map] in *;
      [rewrite commas_one in * | rewrite commas_cons in *];
      rewrite Hc in *; cbn [app] in *;
      rewrite parse_value_array by assumption;
      apply H; solve [congruence | assumption | weigh; lia].
  - cbn [is_json] in Hjson. apply andb_prop in Hjson as [Hkeys Hjson].
    rewrite (print_object ms Hjson).
    destruct ms as [|[k v] ms]; [reflexivity|].
    cbn [size] in Hsize. cbn [app]. rewrite <- app_assoc. cbn [app].
    pose proof (HM ((k, v) :: ms) [] rest) as H.
    destruct ms as [|m ms]; cbn [map] in *;
      [rewrite commas_one in * | rewrite commas_cons in *];
      unfold member_text at 1 in H; unfold member_text at 1;
      cbn [fst snd] in *; rewrite <- app_assoc in *; rewrite quote_app in *;
      cbn [app] in *; rewrite parse_value_object;
      apply H; solve [congruence | assumption | weigh; lia].
Qed.

Lemma reads_all (fuel : nat) :
  reads_value fuel /\ reads_elems fuel /\ reads_members fuel.
Proof.
  induction fuel as [|fuel (HV & HE & HM)].
  - repeat split.
    + intros v rest _ Hsize. destruct v; cbn [size] in Hsize; lia.
    + intros [|v l] acc rest Hne _ Hw; [congruence|].
      weigh; lia.
    + intros [|m ms] acc rest Hne _ _ Hw; [congruence|].
      weigh; lia.
  - auto using reads_value_S, reads_elems_S, reads_members_S.
Qed.

Lemma value_induction (P : value -> Prop) :
  P VUndefined -> P VNull -> (forall b, P (VBool b)) -> (forall n, P (VNum n)) ->
  (forall s, P (VStr s)) ->
  (forall l, Forall P l -> P (VArr l)) ->
  (forall ms, Forall (fun m => P (snd m)) ms -> P (VObj ms)) ->
  forall v, P v.
Proof.
  intros Hu Hn Hb Hz Hs Harr Hobj. fix IH 1.
  intros [| |b|n|s|l|ms];
    [exact Hu | exact Hn | apply Hb | apply Hz | apply Hs | apply Harr | apply Hobj].
  - induction l as [|e l IHl]; constructor; [apply IH | exact IHl].
  - induction ms as [|[k e] ms IHms]; constructor; [apply IH | exact IHms].
Qed.

Lemma commas_weight {A} (f : A -> value) (txt : A -> list ascii) (l : list A) :
  Forall (fun a => (size (f a) <= List.length (txt a))%nat) l ->
  (weight f l <= List.length (commas (map txt l)) + 1)%nat.
Proof.
  induction 1 as [|a l Ha Hl IH]; [weigh; cbn; lia|].
  destruct l as [|b l].
  - weigh. cbn [map commas]. lia.
  - cbn [map] in *.
    change (commas (txt a :: txt b :: map txt l))
      with (txt a ++ ","%char :: commas (txt b :: map txt l)).
    rewrite length_app. cbn [List.length]. weigh. lia.
Qed.

(** The text of a document is at least as long as the document is big. *)
Lemma size_le_print (v : value) :
  is_json v = true -> (size v <= List.length (print v))%nat.
Proof.
  induction v as [| |b|n|s|l IH|ms IH] using value_induction; intros Hjson;
    try discriminate Hjson.
  - cbn. lia.
  - destruct b; cbn; lia.
  - destruct (number_head n) as (c & r & Hc & _). cbn [print size].
    rewrite Hc. cbn. lia.
  - cbn. lia.
  - cbn [is_json] in Hjson. rewrite (print_array l Hjson).
    cbn [size List.length]. rewrite length_app. cbn [List.length].
    pose proof (commas_weight id print l) as H. unfold weight, id in H.
    apply le_n_S, H. clear H.
    rewrite forallb_forall in Hjson. rewrite List.Forall_forall in *.
    intros e He. apply IH; [assumption|]. apply Hjson, He.
  - cbn [is_json] in Hjson. apply andb_prop in Hjson as [_ Hjson].
    rewrite (print_object ms Hjson).
    cbn [size List.length]. rewrite length_app. cbn [List.length].
    pose proof (commas_weight snd member_text ms) as H. unfold weight in H.
    apply le_n_S, H. clear H.
    rewrite forallb_forall in Hjson. rewrite List.Forall_forall in *.
    intros m Hm. unfold member_text. rewrite length_app. cbn [List.length].
    specialize (IH m Hm (Hjson m Hm)). lia.
Qed.

(** [JSON.parse(JSON.stringify(v))] is [v] for every JSON document [v]. *)
Lemma parse_stringify (v : value) :
  is_json v = true ->
  exists text, stringify v = Some text /\ parse_text text = Some v.
Proof.
  intros Hjson. exists (string_of_list_ascii (print v)). split.
  - destruct v; try reflexivity. discriminate Hjson.
  - unfold parse_text, chars. rewrite list_ascii_of_string_of_list_ascii.
    destruct (reads_all (S (List.length (print v)))) as [HV _].
    pose proof (HV v [] Hjson) as H. rewrite app_nil_r in H.
    rewrite H; [reflexivity| |exact I].
    pose proof (size_le_print v Hjson). lia.
Qed.

End RunTime.

(** ** Sorting by [order] *)

Section Sorting.
Import JS ArraySort StudiesGeneral.

Lemma numeric_order_of (v : value) (n : Z) :
  get_prop v "order" = Ok (VNum n) -> order_of v = Some n.
Proof. intros H. unfold order_of. now rewrite H. Qed.

Lemma by_order_numeric (a b : value) (x y : Z) :
  get_prop a "order" = Ok (VNum x) -> get_prop b "order" = Ok (VNum y) ->
  by_order a b = Ok (Some (x - y)).
Proof. intros Ha Hb. unfold by_order. rewrite Ha, Hb. reflexivity. Qed.

Lemma numeric_defined (v : value) : numeric_order v -> is_undefined v = false.
Proof. intros [n H]. destruct v; try reflexivity. discriminate H. Qed.

Lemma le_order_numeric (a b : value) (x y : Z) :
  get_prop a "order" = Ok (VNum x) -> get_prop b "order" = Ok (VNum y) ->
  x <= y -> le_order a b.
Proof.
  intros Ha Hb Hxy. unfold le_order.
  now rewrite (numeric_order_of a x Ha), (numeric_order_of b y Hb).
Qed.

Lemma le_order_trans (a b c : value) : le_order a b -> le_order b c -> le_order a c.
Proof.
  unfold le_order.
  destruct (order_of a), (order_of b), (order_of c); try tauto. lia.
Qed.

(** Inserting into a list in non-decreasing order keeps it so. *)
Lemma insert_sorted (x : value) (l : list value) :
  numeric_order x -> Forall numeric_order l -> StronglySorted le_order l ->
  exists l', insert by_order x l = Ok l' /\ Permutation (x :: l) l' /\
             StronglySorted le_order l'.
Proof.
  intros [nx Hx] Hl Hs. induction l as [|y l IH].
  - exists [x]. split; [reflexivity|split]; repeat constructor.
  - apply Forall_cons_1 in Hl as [[ny Hy] Hl].
    apply StronglySorted_inv in Hs as [Hs Hy_le].
    cbn [insert]. rewrite (by_order_numeric x y nx ny Hx Hy). cbn [bind behind].
    destruct (Z.ltb_spec 0 (nx - ny)) as [Hgt|Hle].
    + destruct (IH Hl Hs) as (l' & -> & Hperm & Hs').
      exists (y :: l'). split; [reflexivity|split].
      * rewrite perm_swap. now constructor.
      * constructor; [assumption|].
        rewrite <- Hperm. constructor; [|assumption].
        apply (le_order_numeric y x ny nx Hy Hx). lia.
    + exists (x :: y :: l). split; [reflexivity|split; [reflexivity|]].
      assert (Hxy : le_order x y)
        by (apply (le_order_numeric x y nx ny Hx Hy); lia).
      constructor; [now constructor|].
      constructor; [assumption|].
      eapply List.Forall_impl; [|exact Hy_le]. intros z. now apply le_order_trans.
Qed.

Lemma isort_sorted (l : list value) :
  Forall numeric_order l ->
  exists l', isort by_order l = Ok l' /\ Permutation l l' /\
             StronglySorted le_order l'.
Proof.
  induction l as [|x l IH]; intros Hl.
  - exists []. split; [reflexivity|split]; constructor.
  - apply Forall_cons_1 in Hl as [Hx Hl].
    destruct (IH Hl) as (l1 & Hsort & Hperm & Hs).
    assert (Hl1 : Forall numeric_order l1) by now rewrite <- Hperm.
    destruct (insert_sorted x l1 Hx Hl1 Hs) as (l2 & Hins & Hperm2 & Hs2).
    exists l2. cbn [isort]. rewrite Hsort. cbn [bind].
    split; [assumption|split; [|assumption]].
    now rewrite <- Hperm2, Hperm.
Qed.

Lemma filter_defined (l : list value) :
  Forall numeric_order l ->
  List.filter (fun v => negb (is_undefined v)) l = l /\
  List.filter is_undefined l = [].
Proof.
  induction 1 as [|x l Hx Hl [IH1 IH2]]; [now split|].
  cbn [List.filter]. rewrite (numeric_defined x Hx). cbn [negb].
  now rewrite IH1, IH2.
Qed.

Lemma sort_sorted (l : list value) :
  Forall numeric_order l ->
  exists l', sort by_order l = Ok l' /\ Permutation l l' /\
             StronglySorted le_order l'.
Proof.
  intros Hl. unfold sort. destruct (filter_defined l Hl) as [-> ->].
  destruct (isort_sorted l Hl) as (l' & -> & Hperm & Hs).
  exists l'. cbn [bind]. now rewrite app_nil_r.
Qed.

Lemma get_set_same (f : field) (v : value) (st : Store) : get f (set f v st) = v.
Proof. destruct f; reflexivity. Qed.

Lemma get_set_other (f g : field) (v : value) (st : Store) :
  f <> g -> get g (set f v st) = get g st.
Proof. intros H. destruct f, g; try reflexivity; congruence. Qed.

Lemma sorted_levels_numeric (f : field) (st : Store) (l : list value) :
  get f st = VArr l -> Forall numeric_order l ->
  exists l', sorted_levels f st = (Ok (VArr l'), set f (VArr l') st) /\
             Permutation l l' /\ StronglySorted le_order l'.
Proof.
  intros Hf Hl. unfold sorted_levels. rewrite Hf.
  destruct (sort_sorted l Hl) as (l' & -> & Hperm & Hs). eauto.
Qed.

(** Reading a sorted getter touches no field but its own. *)
Lemma sorted_levels_frame (f g : field) (st : Store) :
  f <> g -> get g (snd (sorted_levels f st)) = get g st.
Proof.
  intros Hfg. unfold sorted_levels.
  destruct (get f st) as [| | | | |l|]; try reflexivity.
  destruct (sort by_order l); [|reflexivity].
  now apply get_set_other.
Qed.

End Sorting.

(** ** The terminology client *)

Section Client.
Import JS ControlledTerminology.

Lemma run_one_call (o : operation) (log : list http_call) :
  exists c, run o log = (Response (List.length log), log ++ [c]).
Proof. destruct o; eexists; reflexivity. Qed.




(** C8. For every [codelistUid] and [termUid],
    [addTermToCodelist(codelistUid, termUid)] issues exactly one request, a
    POST on the terms of the codelist, whose body holds [term_uid] equal to
    [termUid] and [order] equal to the sentinel 999999; the promise of that
    request is what the operation returns. *)
Theorem addTermToCodelist_order_sentinel (codelistUid termUid : value)
    (log : list http_call) :
  exists c body,
    addTermToCodelist codelistUid termUid log
    = (Response (List.length log), log ++ [c]) /\
    call_method c = POST /\
    call_url c = String.append "ct/codelists/"
                   (String.append (to_string codelistUid) "/terms") /\
    payload c = Some body /\
    get_prop body "term_uid" = Ok termUid /\
    get_prop body "order" = Ok (VNum 999999).
Proof.
  eexists _, _. repeat split.
Qed.


Lemma lookup_set_member_same (k : string) (v : value) (ms : list (string * value)) :
  lookup_member k (set_member k v ms) = v.
Proof.
  induction ms as [|[k' v'] ms IH]; cbn [set_member lookup_member].
  - now rewrite String.eqb_refl.
  - destruct (String.eqb k k') eqn:Hk; cbn [lookup_member]; rewrite ?Hk.
    + now rewrite String.eqb_refl.
    + exact IH.
Qed.



End Client.

(** ** The getters of the store *)

Section Getters.
Import JS StudiesGeneral.

(** C4. For every [objectiveLevels] collection whose elements carry a
    numeric [order], [sortedObjectiveLevels] returns those elements, each
    once, in non-decreasing [order]; for the input
    [[{order:3},{order:1},{order:2}]] the output is
    [[{order:1},{order:2},{order:3}]].  Likewise [sortedEndpointLevels] over
    [endpointLevels]. *)
Theorem sorted_levels_ascending (st : Store) (l : list value)
    (Hl : Forall numeric_order l) :
  (objectiveLevels st = VArr l ->
   exists l', fst (sortedObjectiveLevels st) = Ok (VArr l') /\
              Permutation l l' /\ StronglySorted le_order l') /\
  (endpointLevels st = VArr l ->
   exists l', fst (sortedEndpointLevels st) = Ok (VArr l') /\
              Permutation l l' /\ StronglySorted le_order l') /\
  fst (sortedObjectiveLevels
         (set ObjectiveLevels (VArr [level 3; level 1; level 2]) state))
  = Ok (VArr [level 1; level 2; level 3]) /\
  fst (sortedEndpointLevels
         (set EndpointLevels (VArr [level 3; level 1; level 2]) state))
  = Ok (VArr [level 1; level 2; level 3]).
Proof.
  split; [|split; [|split; reflexivity]]; intros Hf.
  - destruct (sorted_levels_numeric ObjectiveLevels st l Hf Hl)
      as (l' & Hs & Hperm & Hsorted).
    exists l'. unfold sortedObjectiveLevels. now rewrite Hs.
  - destruct (sorted_levels_numeric EndpointLevels st l Hf Hl)
      as (l' & Hs & Hperm & Hsorted).
    exists l'. unfold sortedEndpointLevels. now rewrite Hs.
Qed.

Lemma level_numeric (n : Z) : numeric_order (level n).
Proof. exists n. reflexivity. Qed.

Lemma sorted_levels_ascending_witness :
  exists l',
    fst (sortedObjectiveLevels
           (set ObjectiveLevels (VArr [level 2; level 1; level 2]) state))
    = Ok (VArr l') /\
    Permutation [level 2; level 1; level 2] l' /\ StronglySorted le_order l'.
Proof.
  apply (sorted_levels_ascending
           (set ObjectiveLevels (VArr [level 2; level 1; level 2]) state)
           [level 2; level 1; level 2]).
  - repeat constructor; apply level_numeric.
  - reflexivity.
Defined.

(** C3 does not hold of the code: [sort] works in place, so reading
    [sortedObjectiveLevels] leaves [objectiveLevels] itself reordered.  With
    [[{order:3},{order:1},{order:2}]] in the field, the field holds
    [[{order:1},{order:2},{order:3}]] after the access; likewise
    [sortedEndpointLevels] and [endpointLevels]. *)
Theorem sorted_levels_reorder_the_state :
  let levels := VArr [level 3; level 1; level 2] in
  let sorted := VArr [level 1; level 2; level 3] in
  objectiveLevels (snd (sortedObjectiveLevels (set ObjectiveLevels levels state)))
  = sorted /\
  endpointLevels (snd (sortedEndpointLevels (set EndpointLevels levels state)))
  = sorted /\
  snd (sortedObjectiveLevels (set ObjectiveLevels levels state))
  <> set ObjectiveLevels levels state /\
  snd (sortedEndpointLevels (set EndpointLevels levels state))
  <> set EndpointLevels levels state.
Proof.
  cbv zeta. repeat split; try reflexivity; intros H;
    [apply (f_equal objectiveLevels) in H | apply (f_equal endpointLevels) in H];
    discriminate H.
Qed.

(** C5. For every state with a selected study, [studyId] is the
    [study_id] of the study's identification metadata when its
    [study_number] is neither [undefined] nor [null], and its
    [study_acronym] otherwise. *)
Theorem studyId_by_study_number (st : Store) (im study_number : value) :
  get_path (selectedStudy st) ["current_metadata"; "identification_metadata"]
  = Ok im ->
  get_prop im "study_number" = Ok study_number ->
  studyId st
  = match study_number with
    | VUndefined | VNull => get_prop im "study_acronym"
    | _ => get_prop im "study_id"
    end.
Proof.
  intros Him Hnum. unfold studyId, identification_metadata.
  rewrite Him. cbn [bind]. rewrite Hnum. cbn [bind].
  destruct study_number; reflexivity.
Qed.

Lemma studyId_by_study_number_witness :
  studyId (set SelectedStudy
             (fixture_study [("study_number", VStr "0001");
                             ("study_id", VStr "CDISC-0001");
                             ("study_acronym", VStr "ACRO")]) state)
  = Ok (VStr "CDISC-0001") /\
  studyId (set SelectedStudy
             (fixture_study [("study_number", VNull);
                             ("study_id", VNull);
                             ("study_acronym", VStr "ACRO")]) state)
  = Ok (VStr "ACRO") /\
  studyId (set SelectedStudy
             (fixture_study [("study_acronym", VStr "ACRO")]) state)
  = Ok (VStr "ACRO").
Proof.
  split; [|split].
  - apply (studyId_by_study_number _
             (VObj [("study_number", VStr "0001"); ("study_id", VStr "CDISC-0001");
                    ("study_acronym", VStr "ACRO")]) (VStr "0001"));
      reflexivity.
  - apply (studyId_by_study_number _
             (VObj [("study_number", VNull); ("study_id", VNull);
                    ("study_acronym", VStr "ACRO")]) VNull);
      reflexivity.
  - apply (studyId_by_study_number _
             (VObj [("study_acronym", VStr "ACRO")]) VUndefined);
      reflexivity.
Defined.

(** C9. [studyId] presupposes a selected study: in every state whose
    [selectedStudy] is [null], and so after [unselectStudy()], evaluating it
    reads a property of [null] and throws a [TypeError]; no fallback value
    comes back. *)
Theorem studyId_without_study_throws (st : Store) :
  selectedStudy st = VNull ->
  studyId st = Throw TypeError /\
  (forall w, studyId (store (unselectStudy w)) = Throw TypeError) /\
  studyId state = Throw TypeError.
Proof.
  intros H. unfold studyId, identification_metadata.
  rewrite H. repeat split.
Qed.

Lemma studyId_without_study_throws_witness :
  studyId (store (unselectStudy boot)) = Throw TypeError.
Proof.
  apply (studyId_without_study_throws (store (unselectStudy boot))).
  reflexivity.
Defined.

End Getters.

(** ** The actions of the store *)

Section Actions.
Import JS StudiesGeneral.

Lemma respond_fresh (c : api_call) (r : reaction) (w : World) (o : outcome) :
  respond (List.length (calls w)) o (snd (request c r w))
  = Some (react r (List.length (calls w)) o
            (mk_world (store w) (localStorage w) (calls w ++ [c])
               (delete (List.length (calls w))
                  (<[List.length (calls w) := r]> (pending w)))
               (settled w) (unhandled w) (reloads w))).
Proof.
  unfold respond, request. cbn. now rewrite lookup_insert_eq.
Qed.

Lemma run_fetch_request (a : fetch_action) (w : World) :
  exists c,
    run_fetch a w
    = (RetUndefined, snd (request c (ThenAssignItems (fetch_field a)) w)).
Proof. destruct a; eexists; reflexivity. Qed.

(** C1, as the specification states it, fails in its last part: a failure
    of the call behind [fetchUnits] does not reach a caller that awaited the
    fetch.  The action returns [undefined], not the promise, so [await]
    gives [undefined] and the rejection ends up unhandled. *)
Lemma fetchUnits_failure_not_awaited :
  let e := Reason (VStr "Network Error") in
  exists w2,
    respond 0 (Rejected e) (snd (fetchUnits boot)) = Some w2 /\
    unhandled w2 = [e] /\
    awaited (fst (fetchUnits boot)) w2 = Some (Fulfilled VUndefined) /\
    awaited (fst (fetchUnits boot)) w2 <> Some (Rejected e).
Proof.
  cbv zeta. eexists. split; [apply (respond_fresh _ _ boot)|].
  repeat split. discriminate.
Qed.

(** C1, amended.  Every single-call fetch action ([fetchUnits],
    [fetchStudyTypes], [fetchTrialTypes], ...) issues exactly one call and
    returns [undefined].  When the call succeeds with a response that has
    [data.items], the field of the action is replaced by exactly that
    [items] value and no other field changes; when the call fails, or the
    response has no [data], the store is left as it was.  In either case no
    further call is issued.  The failure is not caught, and it does not
    reach the caller either: awaiting what the action returned gives
    [undefined], and the rejection is an unhandled one. *)
Theorem fetch_action_outcome (a : fetch_action) (w : World) (o : outcome) :
  exists c w1 w2,
    run_fetch a w = (RetUndefined, w1) /\
    calls w1 = calls w ++ [c] /\
    store w1 = store w /\
    respond (List.length (calls w)) o w1 = Some w2 /\
    calls w2 = calls w1 /\
    awaited (fst (run_fetch a w)) w2 = Some (Fulfilled VUndefined) /\
    match o with
    | Fulfilled resp =>
        match get_path resp ["data"; "items"] with
        | Ok items =>
            store w2 = set (fetch_field a) items (store w) /\
            get (fetch_field a) (store w2) = items /\
            unhandled w2 = unhandled w
        | Throw e => store w2 = store w /\ unhandled w2 = unhandled w ++ [e]
        end
    | Rejected e => store w2 = store w /\ unhandled w2 = unhandled w ++ [e]
    end.
Proof.
  destruct (run_fetch_request a w) as [c Hrun].
  exists c. eexists. eexists. rewrite Hrun.
  split; [reflexivity|]. split; [reflexivity|]. split; [reflexivity|].
  split; [apply respond_fresh|].
  destruct o as [resp|e]; cbn [react].
  - destruct (get_path resp ["data"; "items"]) as [items|e];
      repeat split. cbn. apply get_set_same.
  - repeat split.
Qed.

(** **** [fetchSnomedTerms] *)

(** C10. [fetchSnomedTerms] looks the dictionary codelists up for the name
    [SNOMED] and takes the first element of the result without a check.
    When [items] is empty the callback throws before a second request is
    issued, and [snomedTerms], like the rest of the store, is unchanged;
    when there are one or more items the second request is for the terms of
    the first item's [codelist_uid] alone, whatever the other items are. *)
Theorem fetchSnomedTerms_takes_first_item (w : World) :
  let id := List.length (calls w) in
  let w1 := snd (fetchSnomedTerms w) in
  fst (fetchSnomedTerms w) = RetUndefined /\
  calls w1 = calls w ++ [dictionaries_getCodelists (VStr "SNOMED")] /\
  (forall resp,
     get_path resp ["data"; "items"] = Ok (VArr []) ->
     exists w2,
       respond id (Fulfilled resp) w1 = Some w2 /\
       calls w2 = calls w1 /\
       store w2 = store w /\
       unhandled w2 = unhandled w ++ [TypeError]) /\
  (forall resp first others uid,
     get_path resp ["data"; "items"] = Ok (VArr (first :: others)) ->
     get_prop first "codelist_uid" = Ok uid ->
     exists w2,
       respond id (Fulfilled resp) w1 = Some w2 /\
       calls w2
       = calls w1 ++ [dictionaries_getTerms
                        (VObj [("codelist_uid", uid);
                               ("page_size", VNum 0);
                               ("sort_by", VStr sort_by_name)])] /\
       pending w2 !! S id = Some (ThenAssignItems SnomedTerms) /\
       store w2 = store w).
Proof.
  cbv zeta. split; [reflexivity|]. split; [reflexivity|].
  unfold fetchSnomedTerms. cbn [snd]. split.
  - intros resp Hitems. eexists. split; [apply respond_fresh|].
    cbn [react]. unfold snomed_params. rewrite Hitems. repeat split.
  - intros resp first others uid Hitems Huid.
    eexists. split; [apply respond_fresh|].
    cbn [react]. unfold snomed_params. rewrite Hitems. cbn [bind].
    change (get_index (VArr (first :: others)) 0) with (Ok first).
    cbn [bind]. rewrite Huid. cbn [bind].
    split; [reflexivity|]. split; [|reflexivity].
    cbn. rewrite length_app. cbn [List.length].
    replace (List.length (calls w) + 1)%nat with (S (List.length (calls w))) by lia.
    apply lookup_insert_eq.
Qed.

Lemma fetchSnomedTerms_takes_first_item_witness :
  let resp items := VObj [("data", VObj [("items", VArr items)])] in
  let dictionary uid := VObj [("codelist_uid", VStr uid)] in
  (exists w2,
     respond 0 (Fulfilled (resp [])) (snd (fetchSnomedTerms boot)) = Some w2 /\
     calls w2 = [dictionaries_getCodelists (VStr "SNOMED")] /\
     store w2 = state /\
     unhandled w2 = [TypeError]) /\
  (exists w2,
     respond 0 (Fulfilled (resp [dictionary "DictionaryCodelist_1";
                                 dictionary "DictionaryCodelist_2"]))
       (snd (fetchSnomedTerms boot)) = Some w2 /\
     calls w2
     = [dictionaries_getCodelists (VStr "SNOMED");
        dictionaries_getTerms
          (VObj [("codelist_uid", VStr "DictionaryCodelist_1");
                 ("page_size", VNum 0);
                 ("sort_by", VStr sort_by_name)])] /\
     pending w2 !! 1%nat = Some (ThenAssignItems SnomedTerms) /\
     store w2 = state).
Proof.
  cbv zeta.
  destruct (fetchSnomedTerms_takes_first_item boot) as (_ & _ & Hempty & Hfirst).
  split.
  - apply Hempty. reflexivity.
  - apply (Hfirst _ (VObj [("codelist_uid", VStr "DictionaryCodelist_1")])
             [VObj [("codelist_uid", VStr "DictionaryCodelist_2")]]
             (VStr "DictionaryCodelist_1")); reflexivity.
Defined.

(** **** [selectStudy] *)

Lemma get_prop_total (v x : value) (k k' : string) :
  get_prop v k = Ok x -> exists y, get_prop v k' = Ok y.
Proof. destruct v; try discriminate; intros _; eexists; reflexivity. Qed.

Lemma get_path_head (v x : value) (k : string) (ks : list string) :
  get_path v (k :: ks) = Ok x -> exists y, get_prop v k = Ok y.
Proof.
  cbn [get_path]. destruct (get_prop v k) as [y|e]; [eauto|discriminate].
Qed.

Lemma fetch_preference_ok (studyObj uid : value) (call : value -> api_call)
    (f : field) (w : World) :
  get_prop studyObj "uid" = Ok uid ->
  fetch_preference studyObj call f w
  = (Ok tt, snd (request (call uid) (ThenAssignData f) w)).
Proof. intros H. unfold fetch_preference. now rewrite H. Qed.

(** What [selectStudy] leaves behind when the study has version
    metadata. *)
Lemma selectStudy_ok (studyObj forceReload version : value) (w : World) :
  get_path studyObj ["current_metadata"; "version_metadata"; "version_number"]
  = Ok version ->
  exists uid w',
    get_prop studyObj "uid" = Ok uid /\
    selectStudy studyObj forceReload w = (Ok tt, w') /\
    store w'
    = set SelectedStudyVersion version (set SelectedStudy studyObj (store w)) /\
    localStorage w'
    = <["selectedStudy" := persisted_text studyObj]> (localStorage w) /\
    calls w'
    = calls w ++ [study_getStudyPreferredTimeUnit uid;
                  study_getSoAPreferredTimeUnit uid;
                  study_getSoAPreferences uid] /\
    settled w' = settled w /\
    forall id, (id < List.length (calls w))%nat -> pending w' !! id = pending w !! id.
Proof.
  intros Hpath.
  destruct (get_path_head _ _ _ _ Hpath) as [cm Hcm].
  destruct (get_prop_total _ _ _ "uid" Hcm) as [uid Huid].
  exists uid. eexists. split; [exact Huid|].
  unfold selectStudy. rewrite Hpath.
  rewrite !(fetch_preference_ok _ uid) by exact Huid.
  split; [reflexivity|].
  destruct (truthy forceReload); cbn;
    (repeat split; [now rewrite <- !app_assoc|]);
    intros id Hid; rewrite !length_app; cbn [List.length];
    rewrite !lookup_insert_ne by lia; reflexivity.
Qed.

(** C7. For every study object [S] (a JSON document with version
    metadata), [selectStudy(S)] stores under the key [selectedStudy] the
    text [JSON.stringify(S)], and [JSON.parse] of that text is [S]
    again. *)
Theorem selectStudy_persisted_round_trip (S forceReload version : value)
    (w : World) :
  JSON.is_json S = true ->
  get_path S ["current_metadata"; "version_metadata"; "version_number"]
  = Ok version ->
  exists text,
    fst (selectStudy S forceReload w) = Ok tt /\
    localStorage (snd (selectStudy S forceReload w)) !! "selectedStudy" = Some text /\
    JSON.stringify S = Some text /\
    JSON.parse_text text = Some S.
Proof.
  intros Hjson Hpath.
  destruct (parse_stringify S Hjson) as (text & Hs & Hp).
  destruct (selectStudy_ok S forceReload version w Hpath)
    as (uid & w' & _ & -> & _ & Hls & _).
  exists text. cbn [fst snd]. rewrite Hls, lookup_insert_eq.
  unfold persisted_text. rewrite Hs. auto.
Qed.

Lemma selectStudy_persisted_round_trip_witness :
  let S := fixture_study [("study_number", VStr "0001");
                          ("study_id", VStr "CDISC-0001");
                          ("study_acronym", VNull)] in
  exists text,
    fst (selectStudy S VUndefined boot) = Ok tt /\
    localStorage (snd (selectStudy S VUndefined boot)) !! "selectedStudy" = Some text /\
    JSON.stringify S = Some text /\
    JSON.parse_text text = Some S.
Proof.
  cbv zeta.
  apply (selectStudy_persisted_round_trip _ VUndefined (VNum 2) boot);
    reflexivity.
Defined.

(** **** [initialize] *)

Lemma react_keeps_awaiting (id id' : nat) (r r' : reaction) (o : outcome)
    (w : World) :
  awaiting id r w -> awaiting id r (react r' id' o w).
Proof.
  intros [Hp Hlt]. unfold awaiting.
  destruct r', o; cbn [react];
    repeat match goal with
           | |- context [match ?x with _ => _ end] => destruct x
           end;
    cbn; rewrite ?length_app; cbn [List.length];
    rewrite ?lookup_insert_ne by lia; split; (assumption || lia).
Qed.

Lemma respond_keeps_awaiting (id id' : nat) (r : reaction) (o : outcome)
    (w w' : World) :
  id <> id' -> awaiting id r w -> respond id' o w = Some w' -> awaiting id r w'.
Proof.
  intros Hne [Hp Hlt]. unfold respond.
  destruct (pending w !! id') as [r'|]; [|discriminate].
  intros [= <-]. apply react_keeps_awaiting. split; cbn; [|assumption].
  now rewrite lookup_delete_ne.
Qed.

Lemma deliver_keeps_awaiting (id : nat) (r : reaction)
    (answers : list (nat * outcome)) (w : World) :
  Forall (fun a => fst a <> id) answers ->
  awaiting id r w -> awaiting id r (deliver answers w).
Proof.
  intros Hans. revert w.
  induction Hans as [|[id' o] answers Hne _ IH]; intros w Hw; [exact Hw|].
  cbn [deliver]. apply IH. cbn [fst] in Hne.
  destruct (respond id' o w) as [w'|] eqn:Hr; [|exact Hw].
  eapply respond_keeps_awaiting; [|exact Hw|exact Hr]. congruence.
Qed.

(** When [initialize] comes back awaiting call [id], storage held the text
    of a study, and call [id] is the fetch of that study. *)
Lemma initialize_awaits (w w1 : World) (id : nat) :
  initialize w = (RetPromise (After id), w1) ->
  awaiting id AwaitGetStudy w1 /\
  exists text parsed uid,
    localStorage w !! "selectedStudy" = Some text /\
    JSON.parse_text text = Some parsed /\
    get_prop parsed "uid" = Ok uid /\
    calls w1 !! id = Some (study_getStudy uid (VBool true)).
Proof.
  unfold initialize.
  destruct (localStorage w !! "selectedStudy") as [text|] eqn:Htext;
    [|discriminate].
  destruct (truthy (VStr text)); [|discriminate].
  destruct (JSON.parse_text text) as [parsed|] eqn:Hparsed; [|discriminate].
  destruct (selectStudy parsed VUndefined w) as [[[]|e] w'] eqn:Hsel;
    [|discriminate].
  destruct (get_prop parsed "uid") as [uid|e] eqn:Huid; [|discriminate].
  cbn [request]. intros [= <- <-]. split.
  - split; cbn; [apply lookup_insert_eq | rewrite length_app; cbn; lia].
  - exists text, parsed, uid. do 3 (split; [assumption || reflexivity|]).
    cbn [calls]. rewrite lookup_app_r by lia. now rewrite Nat.sub_diag.
Qed.

(** With the text of a study that has version metadata in storage,
    [initialize] does reach the revalidation fetch. *)
Lemma initialize_reaches_revalidation (w : World) (text : string)
    (parsed version : value) :
  localStorage w !! "selectedStudy" = Some text ->
  truthy (VStr text) = true ->
  JSON.parse_text text = Some parsed ->
  get_path parsed ["current_metadata"; "version_metadata"; "version_number"]
  = Ok version ->
  exists w1, initialize w = (RetPromise (After (List.length (calls w) + 3)), w1).
Proof.
  intros Htext Htruthy Hparsed Hpath.
  destruct (selectStudy_ok parsed VUndefined version w Hpath)
    as (uid & w' & Huid & Hsel & _ & _ & Hcalls & _).
  unfold initialize. rewrite Htext, Htruthy, Hparsed, Hsel, Huid.
  cbn [request]. rewrite Hcalls, length_app. cbn [List.length].
  eexists. reflexivity.
Qed.

Lemma respond_rejected_revalidation (id : nat) (e : exn) (w : World) :
  awaiting id AwaitGetStudy w ->
  exists w', respond id (Rejected e) w = Some w' /\
             selectedStudy (store w') = VNull /\
             localStorage w' !! "selectedStudy" = None /\
             settled w' !! id = Some (Fulfilled VUndefined).
Proof.
  intros [Hp _]. unfold respond. rewrite Hp. eexists. split; [reflexivity|].
  cbn. split; [reflexivity|]. split; [apply lookup_delete_eq|apply lookup_insert_eq].
Qed.

(** C6. If [initialize()] finds a persisted study and reaches the
    revalidation fetch of that study, and that fetch fails, for whatever
    reason and whatever other answers arrived in the meantime, then at the
    moment [initialize()] completes [selectedStudy] is [null] and local
    storage holds nothing under the key [selectedStudy]. *)
Theorem initialize_failed_revalidation_clears (w w1 : World) (id : nat)
    (answers : list (nat * outcome)) (e : exn) :
  initialize w = (RetPromise (After id), w1) ->
  Forall (fun a => fst a <> id) answers ->
  (exists text parsed uid,
     localStorage w !! "selectedStudy" = Some text /\
     JSON.parse_text text = Some parsed /\
     get_prop parsed "uid" = Ok uid /\
     calls w1 !! id = Some (study_getStudy uid (VBool true))) /\
  exists w3,
    respond id (Rejected e) (deliver answers w1) = Some w3 /\
    selectedStudy (store w3) = VNull /\
    localStorage w3 !! "selectedStudy" = None /\
    awaited (RetPromise (After id)) w3 = Some (Fulfilled VUndefined).
Proof.
  intros Hinit Hans.
  destruct (initialize_awaits w w1 id Hinit) as [Haw Hcall].
  split; [exact Hcall|].
  apply respond_rejected_revalidation, deliver_keeps_awaiting; assumption.
Qed.

Lemma initialize_failed_revalidation_clears_witness :
  let S := fixture_study [("study_number", VStr "0001");
                          ("study_id", VStr "CDISC-0001");
                          ("study_acronym", VNull)] in
  let w := with_localStorage (<["selectedStudy" := persisted_text S]> ∅) boot in
  let answers :=
    [(0%nat, Fulfilled (VObj [("data", VObj [("time_unit_name", VStr "week")])]));
     (2%nat, Rejected (Reason (VStr "Timeout")))] in
  let e := Reason (VStr "Not Found") in
  (exists text parsed uid,
     localStorage w !! "selectedStudy" = Some text /\
     JSON.parse_text text = Some parsed /\
     get_prop parsed "uid" = Ok uid /\
     calls (snd (initialize w)) !! 3%nat = Some (study_getStudy uid (VBool true))) /\
  exists w3,
    respond 3 (Rejected e) (deliver answers (snd (initialize w))) = Some w3 /\
    selectedStudy (store w3) = VNull /\
    localStorage w3 !! "selectedStudy" = None /\
    awaited (RetPromise (After 3)) w3 = Some (Fulfilled VUndefined).
Proof.
  cbv zeta.
  apply initialize_failed_revalidation_clears.
  - vm_compute. reflexivity.
  - repeat constructor; cbn; lia.
Defined.

End Actions.

(** ** More on selecting and restoring a study *)

Section Selection.
Import JS StudiesGeneral.

Lemma get_prop_throws (v : value) (k : string) (e : exn) :
  get_prop v k = Throw e -> e = TypeError.
Proof. destruct v; cbn; congruence. Qed.

Lemma get_path_throws (ks : list string) (v : value) (e : exn) :
  get_path v ks = Throw e -> e = TypeError.
Proof.
  revert v. induction ks as [|k ks IH]; intros v; cbn [get_path]; [discriminate|].
  destruct (get_prop v k) as [x|e'] eqn:Hk; cbn [bind].
  - apply IH.
  - intros [= <-]. eapply get_prop_throws, Hk.
Qed.

(** X1.  [unselectStudy] clears the selection and nothing else: the version and
    the preferences of the study that was selected stay in the store, the
    rest of local storage stays, no call is issued, and a second
    [unselectStudy] changes nothing more. *)
Theorem unselectStudy_clears_only_selection (w : World) :
  selectedStudy (store (unselectStudy w)) = VNull /\
  localStorage (unselectStudy w) !! "selectedStudy" = None /\
  (forall f, f <> SelectedStudy ->
     get f (store (unselectStudy w)) = get f (store w)) /\
  (forall k, k <> "selectedStudy" ->
     localStorage (unselectStudy w) !! k = localStorage w !! k) /\
  calls (unselectStudy w) = calls w /\
  pending (unselectStudy w) = pending w /\
  unselectStudy (unselectStudy w) = unselectStudy w.
Proof.
  split; [reflexivity|]. split; [apply lookup_delete_eq|].
  split; [intros f Hf; apply get_set_other; congruence|].
  split; [intros k Hk; apply lookup_delete_ne; congruence|].
  split; [reflexivity|]. split; [reflexivity|].
  unfold unselectStudy, with_localStorage, assign, with_store. cbn.
  now rewrite delete_delete_eq.
Qed.

Lemma unselectStudy_clears_only_selection_witness :
  selectedStudyVersion
    (store (unselectStudy
              (snd (selectStudy (fixture_study []) VUndefined boot))))
  = VNum 2.
Proof.
  destruct (unselectStudy_clears_only_selection
              (snd (selectStudy (fixture_study []) VUndefined boot)))
    as (_ & _ & Hframe & _).
  etransitivity; [apply (Hframe SelectedStudyVersion); discriminate|reflexivity].
Defined.

(** X2.  With nothing, or the empty text, under the key [selectedStudy],
    [initialize] issues no call and changes nothing, and its promise is
    fulfilled; so [unselectStudy()] followed by [initialize()] leaves the
    store without a selection. *)
Theorem initialize_without_persisted_study (w : World) :
  (localStorage w !! "selectedStudy" = None \/
   localStorage w !! "selectedStudy" = Some EmptyString ->
   initialize w = (RetPromise (Settled (Fulfilled VUndefined)), w)) /\
  initialize (unselectStudy w)
  = (RetPromise (Settled (Fulfilled VUndefined)), unselectStudy w).
Proof.
  split.
  - unfold initialize. intros [-> | ->]; reflexivity.
  - unfold initialize.
    replace (localStorage (unselectStudy w) !! "selectedStudy") with (@None string);
      [reflexivity|].
    symmetry. apply lookup_delete_eq.
Qed.

Lemma initialize_without_persisted_study_witness :
  initialize boot = (RetPromise (Settled (Fulfilled VUndefined)), boot).
Proof.
  apply (proj1 (initialize_without_persisted_study boot)). left. reflexivity.
Defined.



Lemma selectStudy_throws (studyObj forceReload : value) (e : exn) (w : World) :
  get_path studyObj ["current_metadata"; "version_metadata"; "version_number"]
  = Throw e ->
  selectStudy studyObj forceReload w
  = (Throw TypeError, assign SelectedStudy studyObj w).
Proof.
  intros Hpath. pose proof (get_path_throws _ _ _ Hpath) as ->.
  unfold selectStudy. now rewrite Hpath.
Qed.

(** X4.  [selectStudy] on an object without version metadata throws a
    [TypeError] half way: [selectedStudy] is already replaced, while
    [selectedStudyVersion], local storage and the calls are as before. *)
Theorem selectStudy_without_metadata (studyObj forceReload : value) (e : exn)
    (w : World) :
  get_path studyObj ["current_metadata"; "version_metadata"; "version_number"]
  = Throw e ->
  exists w',
    selectStudy studyObj forceReload w = (Throw TypeError, w') /\
    selectedStudy (store w') = studyObj /\
    selectedStudyVersion (store w') = selectedStudyVersion (store w) /\
    localStorage w' = localStorage w /\
    calls w' = calls w /\
    reloads w' = reloads w.
Proof.
  intros Hpath. eexists. split; [eapply selectStudy_throws, Hpath|].
  repeat split.
Qed.

Lemma selectStudy_without_metadata_witness :
  exists w',
    selectStudy (VObj [("uid", VStr "Study_000001")]) VUndefined boot
    = (Throw TypeError, w') /\
    selectedStudy (store w') = VObj [("uid", VStr "Study_000001")] /\
    selectedStudyVersion (store w') = VNull /\
    localStorage w' = ∅ /\
    calls w' = [] /\
    reloads w' = 0%nat.
Proof.
  apply (selectStudy_without_metadata _ VUndefined TypeError boot). reflexivity.
Defined.

(** X5.  When the persisted text is JSON but has no version metadata,
    [initialize] rejects with the [TypeError] of [selectStudy]: the parsed
    value is left in [selectedStudy], the text stays in local storage, and
    the study is never fetched. *)
Theorem initialize_with_incomplete_study (w : World) (text : string)
    (parsed : value) (e : exn) :
  localStorage w !! "selectedStudy" = Some text ->
  text <> EmptyString ->
  JSON.parse_text text = Some parsed ->
  get_path parsed ["current_metadata"; "version_metadata"; "version_number"]
  = Throw e ->
  exists w',
    initialize w = (RetPromise (Settled (Rejected TypeError)), w') /\
    selectedStudy (store w') = parsed /\
    localStorage w' !! "selectedStudy" = Some text /\
    calls w' = calls w.
Proof.
  intros Htext Hne Hparse Hpath.
  eexists. unfold initialize.
  rewrite Htext, Hparse, (selectStudy_throws parsed VUndefined e w Hpath).
  destruct text; [congruence|]. cbn [truthy String.eqb negb].
  split; [reflexivity|]. split; [reflexivity|]. split; [exact Htext|reflexivity].
Qed.

Lemma initialize_with_incomplete_study_witness :
  let text := String "{" (String JSON.dquote
                (String.append "uid" (String JSON.dquote ":7}"))) in
  let w := with_localStorage (<["selectedStudy" := text]> ∅) boot in
  exists w',
    initialize w = (RetPromise (Settled (Rejected TypeError)), w') /\
    selectedStudy (store w') = VObj [("uid", VNum 7)] /\
    localStorage w' !! "selectedStudy" = Some text /\
    calls w' = [].
Proof.
  intros text w.
  apply (initialize_with_incomplete_study w text (VObj [("uid", VNum 7)]) TypeError).
  - reflexivity.
  - discriminate.
  - reflexivity.
  - reflexivity.
Defined.

End Selection.

(** ** More on the answers to a selection *)

Section Preferences.
Import JS StudiesGeneral.

(** The world [selectStudy] leaves, in full. *)
Lemma selectStudy_world (studyObj forceReload version uid : value) (w : World) :
  get_path studyObj ["current_metadata"; "version_metadata"; "version_number"]
  = Ok version ->
  get_prop studyObj "uid" = Ok uid ->
  let n := List.length (calls w) in
  selectStudy studyObj forceReload w
  = (Ok tt,
     mk_world
       (set SelectedStudyVersion version (set SelectedStudy studyObj (store w)))
       (<["selectedStudy" := persisted_text studyObj]> (localStorage w))
       (calls w ++ [study_getStudyPreferredTimeUnit uid;
                    study_getSoAPreferredTimeUnit uid;
                    study_getSoAPreferences uid])
       (<[S (S n) := ThenAssignData SoaPreferences]>
          (<[S n := ThenAssignData SoaPreferredTimeUnit]>
             (<[n := ThenAssignData StudyPreferredTimeUnit]> (pending w))))
       (settled w) (unhandled w)
       (if truthy forceReload then S (reloads w) else reloads w)).
Proof.
  intros Hpath Huid n. unfold selectStudy. rewrite Hpath.
  rewrite !(fetch_preference_ok _ uid) by exact Huid.
  subst n.
  destruct (truthy forceReload); cbn;
    rewrite !length_app; cbn [List.length]; rewrite <- !app_assoc; cbn [app];
    rewrite !Nat.add_1_r; reflexivity.
Qed.

Lemma selectStudy_inv (studyObj forceReload : value) (w w' : World) :
  selectStudy studyObj forceReload w = (Ok tt, w') ->
  exists version uid,
    get_path studyObj ["current_metadata"; "version_metadata"; "version_number"]
    = Ok version /\
    get_prop studyObj "uid" = Ok uid.
Proof.
  destruct (get_path studyObj
              ["current_metadata"; "version_metadata"; "version_number"])
    as [version|e] eqn:Hpath.
  - intros _. destruct (get_path_head _ _ _ _ Hpath) as [cm Hcm].
    destruct (get_prop_total _ _ _ "uid" Hcm) as [uid Huid]. eauto.
  - rewrite (selectStudy_throws _ _ _ _ Hpath). discriminate.
Qed.

(** X6.  [selectStudy] issues exactly three calls, all for the [uid] of the
    study and in the order time unit, SoA time unit, SoA preferences,
    whatever [forceReload] is; the page is reloaded once exactly when
    [forceReload] is truthy; and the three preference fields still hold
    their old values when [selectStudy] returns. *)
Theorem selectStudy_fetches_preferences (studyObj forceReload version : value)
    (w : World) :
  get_path studyObj ["current_metadata"; "version_metadata"; "version_number"]
  = Ok version ->
  let w' := snd (selectStudy studyObj forceReload w) in
  let n := List.length (calls w) in
  exists uid,
    get_prop studyObj "uid" = Ok uid /\
    calls w' = calls w ++ [study_getStudyPreferredTimeUnit uid;
                           study_getSoAPreferredTimeUnit uid;
                           study_getSoAPreferences uid] /\
    pending w' !! n = Some (ThenAssignData StudyPreferredTimeUnit) /\
    pending w' !! S n = Some (ThenAssignData SoaPreferredTimeUnit) /\
    pending w' !! S (S n) = Some (ThenAssignData SoaPreferences) /\
    reloads w' = (if truthy forceReload then S (reloads w) else reloads w) /\
    studyPreferredTimeUnit (store w') = studyPreferredTimeUnit (store w) /\
    soaPreferredTimeUnit (store w') = soaPreferredTimeUnit (store w) /\
    soaPreferences (store w') = soaPreferences (store w).
Proof.
  intros Hpath w' n.
  destruct (get_path_head _ _ _ _ Hpath) as [cm Hcm].
  destruct (get_prop_total _ _ _ "uid" Hcm) as [uid Huid].
  exists uid. split; [exact Huid|]. subst w'.
  rewrite (selectStudy_world _ forceReload _ _ w Hpath Huid). cbn [snd calls pending reloads store].
  split; [reflexivity|].
  split; [now rewrite !lookup_insert_ne by lia; rewrite lookup_insert_eq|].
  split; [now rewrite lookup_insert_ne by lia; rewrite lookup_insert_eq|].
  split; [now rewrite lookup_insert_eq|].
  repeat split.
Qed.

Lemma selectStudy_fetches_preferences_witness :
  let w' := snd (selectStudy (fixture_study []) (VBool true) boot) in
  exists uid,
    get_prop (fixture_study []) "uid" = Ok uid /\
    calls w' = [study_getStudyPreferredTimeUnit uid;
                study_getSoAPreferredTimeUnit uid;
                study_getSoAPreferences uid] /\
    pending w' !! 0%nat = Some (ThenAssignData StudyPreferredTimeUnit) /\
    pending w' !! 1%nat = Some (ThenAssignData SoaPreferredTimeUnit) /\
    pending w' !! 2%nat = Some (ThenAssignData SoaPreferences) /\
    reloads w' = 1%nat /\
    studyPreferredTimeUnit (store w') = VNull /\
    soaPreferredTimeUnit (store w') = VNull /\
    soaPreferences (store w') = VNull.
Proof.
  apply (selectStudy_fetches_preferences (fixture_study []) (VBool true) (VNum 2) boot).
  reflexivity.
Defined.

(** The world [initialize] leaves when it reaches the revalidation. *)
Lemma initialize_world (w : World) (text : string) (parsed version uid : value) :
  localStorage w !! "selectedStudy" = Some text ->
  truthy (VStr text) = true ->
  JSON.parse_text text = Some parsed ->
  get_path parsed ["current_metadata"; "version_metadata"; "version_number"]
  = Ok version ->
  get_prop parsed "uid" = Ok uid ->
  let n := List.length (calls w) in
  initialize w
  = (RetPromise (After (S (S (S n)))),
     mk_world
       (set SelectedStudyVersion version (set SelectedStudy parsed (store w)))
       (<["selectedStudy" := persisted_text parsed]> (localStorage w))
       (calls w ++ [study_getStudyPreferredTimeUnit uid;
                    study_getSoAPreferredTimeUnit uid;
                    study_getSoAPreferences uid;
                    study_getStudy uid (VBool true)])
       (<[S (S (S n)) := AwaitGetStudy]>
          (<[S (S n) := ThenAssignData SoaPreferences]>
             (<[S n := ThenAssignData SoaPreferredTimeUnit]>
                (<[n := ThenAssignData StudyPreferredTimeUnit]> (pending w)))))
       (settled w) (unhandled w) (reloads w)).
Proof.
  intros Htext Htruthy Hparsed Hpath Huid n. unfold initialize.
  rewrite Htext, Htruthy, Hparsed.
  rewrite (selectStudy_world parsed VUndefined version uid w Hpath Huid), Huid.
  subst n. cbn. rewrite length_app. cbn [List.length].
  rewrite <- app_assoc. cbn [app].
  replace (List.length (calls w) + 3)%nat with (S (S (S (List.length (calls w)))))
    by lia.
  reflexivity.
Qed.

Lemma initialize_inv (w w1 : World) (id : nat) :
  initialize w = (RetPromise (After id), w1) ->
  exists text parsed version uid,
    localStorage w !! "selectedStudy" = Some text /\
    truthy (VStr text) = true /\
    JSON.parse_text text = Some parsed /\
    get_path parsed ["current_metadata"; "version_metadata"; "version_number"]
    = Ok version /\
    get_prop parsed "uid" = Ok uid.
Proof.
  unfold initialize.
  destruct (localStorage w !! "selectedStudy") as [text|] eqn:Htext;
    [|discriminate].
  destruct (truthy (VStr text)) eqn:Htruthy; [|discriminate].
  destruct (JSON.parse_text text) as [parsed|] eqn:Hparsed; [|discriminate].
  destruct (selectStudy parsed VUndefined w) as [[[]|e] w'] eqn:Hsel;
    [|discriminate].
  destruct (selectStudy_inv _ _ _ _ Hsel) as (version & uid & Hpath & Huid).
  intros _. exists text, parsed, version, uid. auto.
Qed.

(** The text [JSON.stringify] gives for a document is not empty. *)
Lemma persisted_text_truthy (v : value) :
  JSON.is_json v = true -> truthy (VStr (persisted_text v)) = true.
Proof.
  intros Hjson. unfold persisted_text.
  assert (Hs : JSON.stringify v = Some (string_of_list_ascii (JSON.print v)))
    by (destruct v; (discriminate Hjson || reflexivity)).
  rewrite Hs. destruct (print_head v Hjson) as (c & r & -> & _). reflexivity.
Qed.

(** X7.  What [selectStudy(S)] persisted, a later [initialize()] restores: in
    any session whose local storage holds that entry, [initialize] selects
    [S] again with its version, and goes on to fetch the study by its
    [uid]. *)
Theorem initialize_restores_selected_study (S forceReload version : value)
    (w later : World) :
  JSON.is_json S = true ->
  get_path S ["current_metadata"; "version_metadata"; "version_number"]
  = Ok version ->
  localStorage later !! "selectedStudy"
  = localStorage (snd (selectStudy S forceReload w)) !! "selectedStudy" ->
  exists uid id,
    get_prop S "uid" = Ok uid /\
    fst (initialize later) = RetPromise (After id) /\
    selectedStudy (store (snd (initialize later))) = S /\
    selectedStudyVersion (store (snd (initialize later))) = version /\
    calls (snd (initialize later)) !! id = Some (study_getStudy uid (VBool true)) /\
    pending (snd (initialize later)) !! id = Some AwaitGetStudy.
Proof.
  intros Hjson Hpath Hls.
  destruct (get_path_head _ _ _ _ Hpath) as [cm Hcm].
  destruct (get_prop_total _ _ _ "uid" Hcm) as [uid Huid].
  rewrite (selectStudy_world S forceReload version uid w Hpath Huid) in Hls.
  cbn [snd localStorage] in Hls. rewrite lookup_insert_eq in Hls.
  destruct (parse_stringify S Hjson) as (text & Hs & Hp).
  assert (Htext : persisted_text S = text) by (unfold persisted_text; now rewrite Hs).
  pose proof (persisted_text_truthy S Hjson) as Htruthy.
  rewrite Htext in *.
  rewrite (initialize_world later text S version uid Hls Htruthy Hp Hpath Huid).
  exists uid. eexists. split; [exact Huid|]. split; [reflexivity|].
  cbn [snd store calls pending]. repeat split.
  - rewrite lookup_app_r by lia.
    replace (_ - _)%nat with 3%nat by lia. reflexivity.
  - apply lookup_insert_eq.
Qed.

Lemma initialize_restores_selected_study_witness :
  let S := fixture_study [("study_number", VStr "0001");
                          ("study_id", VStr "CDISC-0001")] in
  let later :=
    with_localStorage
      (localStorage (snd (selectStudy S VUndefined boot))) boot in
  exists uid id,
    get_prop S "uid" = Ok uid /\
    fst (initialize later) = RetPromise (After id) /\
    selectedStudy (store (snd (initialize later))) = S /\
    selectedStudyVersion (store (snd (initialize later))) = VNum 2 /\
    calls (snd (initialize later)) !! id = Some (study_getStudy uid (VBool true)) /\
    pending (snd (initialize later)) !! id = Some AwaitGetStudy.
Proof.
  intros S later.
  apply (initialize_restores_selected_study S VUndefined (VNum 2) boot later);
    reflexivity.
Defined.

(** X8.  When the revalidation fetch succeeds, whatever the response is,
    [initialize] completes with the store as it was: the restored study
    stays selected, and local storage holds its serialisation. *)
Theorem initialize_keeps_revalidated_study (w w1 : World) (id : nat)
    (response : value) :
  initialize w = (RetPromise (After id), w1) ->
  exists text parsed w2,
    localStorage w !! "selectedStudy" = Some text /\
    JSON.parse_text text = Some parsed /\
    respond id (Fulfilled response) w1 = Some w2 /\
    store w2 = store w1 /\
    selectedStudy (store w2) = parsed /\
    localStorage w2 !! "selectedStudy" = Some (persisted_text parsed) /\
    calls w2 = calls w1 /\
    awaited (RetPromise (After id)) w2 = Some (Fulfilled VUndefined).
Proof.
  intros Hinit.
  destruct (initialize_inv w w1 id Hinit)
    as (text & parsed & version & uid & Htext & Htruthy & Hparsed & Hpath & Huid).
  rewrite (initialize_world w text parsed version uid
             Htext Htruthy Hparsed Hpath Huid) in Hinit.
  injection Hinit as <- <-.
  exists text, parsed. eexists.
  split; [exact Htext|]. split; [exact Hparsed|].
  unfold respond. cbn [pending]. rewrite lookup_insert_eq.
  split; [reflexivity|]. cbn.
  repeat split; (apply lookup_insert_eq || reflexivity).
Qed.

Lemma initialize_keeps_revalidated_study_witness :
  let S := fixture_study [("study_acronym", VStr "ACRO")] in
  let w := with_localStorage (<["selectedStudy" := persisted_text S]> ∅) boot in
  exists text parsed w2,
    localStorage w !! "selectedStudy" = Some text /\
    JSON.parse_text text = Some parsed /\
    respond 3 (Fulfilled (VObj [("data", S)])) (snd (initialize w)) = Some w2 /\
    store w2 = store (snd (initialize w)) /\
    selectedStudy (store w2) = parsed /\
    localStorage w2 !! "selectedStudy" = Some (persisted_text parsed) /\
    calls w2 = calls (snd (initialize w)) /\
    awaited (RetPromise (After 3)) w2 = Some (Fulfilled VUndefined).
Proof.
  intros S w.
  apply (initialize_keeps_revalidated_study w (snd (initialize w)) 3).
  vm_compute. reflexivity.
Defined.

(** The answer to a [ThenAssignData] call that carries [data]. *)
Lemma respond_assign_data (id : nat) (f : field) (resp data : value) (w : World) :
  pending w !! id = Some (ThenAssignData f) ->
  get_prop resp "data" = Ok data ->
  respond id (Fulfilled resp) w
  = Some (mk_world (set f data (store w)) (localStorage w) (calls w)
            (delete id (pending w))
            (<[id := Fulfilled VUndefined]> (settled w))
            (unhandled w) (reloads w)).
Proof.
  intros Hp Hdata. unfold respond. rewrite Hp. cbn [react]. now rewrite Hdata.
Qed.

Lemma permutation_of_three {A} (a b c : A) (l : list A) :
  Permutation [a; b; c] l ->
  l = [a; b; c] \/ l = [a; c; b] \/ l = [b; a; c] \/
  l = [b; c; a] \/ l = [c; a; b] \/ l = [c; b; a].
Proof.
  intros H. pose proof (Permutation_length H) as Hlen.
  destruct l as [|x [|y [|z [|? ?]]]]; try discriminate Hlen. clear Hlen.
  assert (Hx : In x [a; b; c]) by (eapply Permutation_in; [symmetry; exact H|now left]).
  destruct Hx as [<-|[<-|[<-|[]]]].
  - apply Permutation_cons_inv, Permutation_length_2_inv in H.
    destruct H as [[= <- <-]|[= <- <-]]; tauto.
  - assert (H' : Permutation (b :: [a; c]) (b :: [y; z]))
      by (rewrite <- H; apply perm_swap).
    apply Permutation_cons_inv, Permutation_length_2_inv in H'.
    destruct H' as [[= <- <-]|[= <- <-]]; tauto.
  - assert (H' : Permutation (c :: [a; b]) (c :: [y; z])).
    { rewrite <- H. transitivity [a; c; b]; [apply perm_swap|].
      constructor. apply perm_swap. }
    apply Permutation_cons_inv, Permutation_length_2_inv in H'.
    destruct H' as [[= <- <-]|[= <- <-]]; tauto.
Qed.

Ltac answer_assign_data :=
  cbn [deliver];
  erewrite (respond_assign_data _ _ _ _ (mk_world _ _ _ _ _ _ _));
    [|cbn [pending];
      rewrite ?lookup_delete_ne, ?lookup_insert_ne by lia;
      apply lookup_insert_eq
     |eassumption].

(** X9.  The three answers to the fetches of [selectStudy] fill three separate
    fields, so the order in which they arrive does not matter: after all
    three have succeeded the store is the same for each of the six orders,
    and local storage is untouched. *)
Theorem selectStudy_answers_in_any_order (studyObj forceReload version : value)
    (r1 r2 r3 d1 d2 d3 : value) (w : World) (order : list (nat * outcome)) :
  get_path studyObj ["current_metadata"; "version_metadata"; "version_number"]
  = Ok version ->
  get_prop r1 "data" = Ok d1 ->
  get_prop r2 "data" = Ok d2 ->
  get_prop r3 "data" = Ok d3 ->
  let n := List.length (calls w) in
  let w' := snd (selectStudy studyObj forceReload w) in
  Permutation [(n, Fulfilled r1); (S n, Fulfilled r2); (S (S n), Fulfilled r3)]
    order ->
  store (deliver order w')
  = set SoaPreferences d3
      (set SoaPreferredTimeUnit d2 (set StudyPreferredTimeUnit d1 (store w'))) /\
  localStorage (deliver order w') = localStorage w' /\
  calls (deliver order w') = calls w'.
Proof.
  intros Hpath H1 H2 H3 n w' Hperm.
  destruct (get_path_head _ _ _ _ Hpath) as [cm Hcm].
  destruct (get_prop_total _ _ _ "uid" Hcm) as [uid Huid].
  subst w'. rewrite (selectStudy_world _ forceReload _ _ w Hpath Huid).
  cbn [snd]. fold n.
  destruct (permutation_of_three _ _ _ _ Hperm)
    as [->|[->|[->|[->|[->| ->]]]]];
    do 3 answer_assign_data; cbn [deliver store localStorage calls];
    (split; [reflexivity|split; reflexivity]).
Qed.

Lemma selectStudy_answers_in_any_order_witness :
  let w' := snd (selectStudy (fixture_study []) VUndefined boot) in
  let answer (v : value) := Fulfilled (VObj [("data", v)]) in
  let order := [(2%nat, answer (VStr "prefs")); (0%nat, answer (VStr "week"));
                (1%nat, answer (VStr "day"))] in
  store (deliver order w')
  = set SoaPreferences (VStr "prefs")
      (set SoaPreferredTimeUnit (VStr "day")
         (set StudyPreferredTimeUnit (VStr "week") (store w'))) /\
  localStorage (deliver order w') = localStorage w' /\
  calls (deliver order w') = calls w'.
Proof.
  intros w' answer order.
  apply (selectStudy_answers_in_any_order (fixture_study []) VUndefined (VNum 2)
           (VObj [("data", VStr "week")]) (VObj [("data", VStr "day")])
           (VObj [("data", VStr "prefs")])
           (VStr "week") (VStr "day") (VStr "prefs") boot order);
    try reflexivity.
  symmetry. apply (Permutation_cons_append [_; _]).
Defined.

(** X10.  The callbacks do not check which study is selected: when a second
    study is selected before the first one's time unit has arrived, and the
    first answer comes in after the second, [studyPreferredTimeUnit] ends
    up holding the time unit of the study that is no longer selected. *)
Theorem stale_answer_overwrites_preference (S1 S2 reload1 reload2 v1 v2 : value)
    (r1 r2 d1 d2 : value) (w : World) :
  get_path S1 ["current_metadata"; "version_metadata"; "version_number"] = Ok v1 ->
  get_path S2 ["current_metadata"; "version_metadata"; "version_number"] = Ok v2 ->
  get_prop r1 "data" = Ok d1 ->
  get_prop r2 "data" = Ok d2 ->
  let n := List.length (calls w) in
  let w2 := snd (selectStudy S2 reload2 (snd (selectStudy S1 reload1 w))) in
  let w3 := deliver [(S (S (S n)), Fulfilled r2); (n, Fulfilled r1)] w2 in
  selectedStudy (store w3) = S2 /\
  selectedStudyVersion (store w3) = v2 /\
  studyPreferredTimeUnit (store w3) = d1.
Proof.
  intros Hv1 Hv2 H1 H2 n w2 w3.
  destruct (get_path_head _ _ _ _ Hv1) as [cm1 Hcm1].
  destruct (get_prop_total _ _ _ "uid" Hcm1) as [uid1 Huid1].
  destruct (get_path_head _ _ _ _ Hv2) as [cm2 Hcm2].
  destruct (get_prop_total _ _ _ "uid" Hcm2) as [uid2 Huid2].
  subst w3 w2.
  rewrite (selectStudy_world _ reload1 _ _ w Hv1 Huid1). cbn [snd].
  rewrite (selectStudy_world _ reload2 _ _ _ Hv2 Huid2). cbn [snd calls].
  rewrite length_app. cbn [List.length].
  replace (List.length (calls w) + 3)%nat with (S (S (S n))) by (subst n; lia).
  fold n. do 2 answer_assign_data. cbn [deliver store].
  repeat split.
Qed.

Lemma stale_answer_overwrites_preference_witness :
  let S1 := fixture_study [("study_acronym", VStr "FIRST")] in
  let S2 := fixture_study [("study_acronym", VStr "SECOND")] in
  let w2 := snd (selectStudy S2 VUndefined (snd (selectStudy S1 VUndefined boot))) in
  let w3 := deliver [(3%nat, Fulfilled (VObj [("data", VStr "week")]));
                     (0%nat, Fulfilled (VObj [("data", VStr "day")]))] w2 in
  selectedStudy (store w3) = S2 /\
  selectedStudyVersion (store w3) = VNum 2 /\
  studyPreferredTimeUnit (store w3) = VStr "day".
Proof.
  intros S1 S2 w2 w3.
  apply (stale_answer_overwrites_preference S1 S2 VUndefined VUndefined
           (VNum 2) (VNum 2)
           (VObj [("data", VStr "day")]) (VObj [("data", VStr "week")])
           (VStr "day") (VStr "week") boot);
    reflexivity.
Defined.

End Preferences.

(** ** More on updates and fetches *)

Section Updates.
Import JS StudiesGeneral.

(** X11.  Without a selected study both update actions throw a [TypeError]
    before any call is issued, whatever their argument is. *)
Theorem updates_need_selected_study (arg : value) (w : World) :
  selectedStudy (store w) = VNull \/ selectedStudy (store w) = VUndefined ->
  setStudyPreferredTimeUnit arg w = (Throw TypeError, w) /\
  setSoaPreferences arg w = (Throw TypeError, w).
Proof.
  intros Hsel. unfold setStudyPreferredTimeUnit, setSoaPreferences.
  assert (Huid : get_prop (selectedStudy (store w)) "uid" = Throw TypeError)
    by (destruct Hsel as [-> | ->]; reflexivity).
  rewrite Huid.
  destruct arg; split; reflexivity.
Qed.

Lemma updates_need_selected_study_witness :
  setStudyPreferredTimeUnit
    (VObj [("timeUnitUid", VStr "UnitDefinition_1"); ("protocolSoa", VBool false)])
    boot
  = (Throw TypeError, boot) /\
  setSoaPreferences (VObj [("show_epochs", VBool true)]) (unselectStudy boot)
  = (Throw TypeError, unselectStudy boot).
Proof.
  split.
  - apply (updates_need_selected_study _ boot). left. reflexivity.
  - apply (updates_need_selected_study _ (unselectStudy boot)). left. reflexivity.
Defined.

(** X12.  [setStudyPreferredTimeUnit] updates the store only after the server
    has confirmed.  It issues one call, with the body
    [{unit_definition_uid: timeUnitUid}], and leaves the store as it is; a
    successful answer with [data] then sets [soaPreferredTimeUnit] when
    [protocolSoa] is truthy and [studyPreferredTimeUnit] otherwise, and
    nothing else; a failure changes nothing and reaches the caller that
    awaits the returned promise, so it is not an unhandled rejection. *)
Theorem setStudyPreferredTimeUnit_after_confirmation
    (arg timeUnitUid protocolSoa uid : value) (w : World) (o : outcome) :
  get_prop arg "timeUnitUid" = Ok timeUnitUid ->
  get_prop arg "protocolSoa" = Ok protocolSoa ->
  get_prop (selectedStudy (store w)) "uid" = Ok uid ->
  let n := List.length (calls w) in
  exists w1 w2,
    setStudyPreferredTimeUnit arg w = (Ok (RetPromise (After n)), w1) /\
    calls w1
    = calls w ++ [study_updateStudyPreferredTimeUnit uid
                    (VObj [("unit_definition_uid", timeUnitUid)]) protocolSoa] /\
    store w1 = store w /\
    respond n o w1 = Some w2 /\
    calls w2 = calls w1 /\
    unhandled w2 = unhandled w /\
    match o with
    | Fulfilled resp =>
        match get_prop resp "data" with
        | Ok data =>
            store w2
            = set (if truthy protocolSoa then SoaPreferredTimeUnit
                   else StudyPreferredTimeUnit) data (store w) /\
            awaited (RetPromise (After n)) w2 = Some (Fulfilled VUndefined)
        | Throw e =>
            store w2 = store w /\
            awaited (RetPromise (After n)) w2 = Some (Rejected e)
        end
    | Rejected e =>
        store w2 = store w /\
        awaited (RetPromise (After n)) w2 = Some (Rejected e)
    end.
Proof.
  intros Ht Hp Hu n. unfold setStudyPreferredTimeUnit. rewrite Ht, Hp, Hu.
  eexists. eexists. split; [reflexivity|].
  split; [reflexivity|]. split; [reflexivity|].
  split; [apply respond_fresh|].
  destruct o as [resp|e]; cbn [react].
  - destruct (get_prop resp "data") as [data|e]; cbn;
      repeat split; apply lookup_insert_eq.
  - cbn. repeat split. apply lookup_insert_eq.
Qed.

Lemma setStudyPreferredTimeUnit_after_confirmation_witness :
  let w := assign SelectedStudy (fixture_study []) boot in
  let arg := VObj [("timeUnitUid", VStr "UnitDefinition_1");
                   ("protocolSoa", VBool true)] in
  exists w1 w2,
    setStudyPreferredTimeUnit arg w = (Ok (RetPromise (After 0)), w1) /\
    calls w1
    = [study_updateStudyPreferredTimeUnit (VStr "Study_000001")
         (VObj [("unit_definition_uid", VStr "UnitDefinition_1")]) (VBool true)] /\
    store w1 = store w /\
    respond 0 (Fulfilled (VObj [("data", VStr "week")])) w1 = Some w2 /\
    calls w2 = calls w1 /\
    unhandled w2 = [] /\
    store w2 = set SoaPreferredTimeUnit (VStr "week") (store w) /\
    awaited (RetPromise (After 0)) w2 = Some (Fulfilled VUndefined).
Proof.
  intros w arg.
  apply (setStudyPreferredTimeUnit_after_confirmation arg
           (VStr "UnitDefinition_1") (VBool true) (VStr "Study_000001") w
           (Fulfilled (VObj [("data", VStr "week")])));
    reflexivity.
Defined.

(** X13.  [setSoaPreferences] sends exactly the three flags [show_epochs],
    [show_milestones] and [baseline_as_time_zero] of its argument, in that
    order and nothing else of it (a flag the argument lacks goes out as
    [undefined]), and leaves the store as it is; [soaPreferences] becomes
    the [data] of the answer only once the call has succeeded, and a
    failure changes nothing and reaches the awaiting caller. *)
Theorem setSoaPreferences_after_confirmation (uid : value)
    (members : list (string * value)) (w : World) (o : outcome) :
  get_prop (selectedStudy (store w)) "uid" = Ok uid ->
  let n := List.length (calls w) in
  exists w1 w2,
    setSoaPreferences (VObj members) w = (Ok (RetPromise (After n)), w1) /\
    calls w1
    = calls w ++ [study_updateSoaPreferences uid
                    (VObj [("show_epochs", lookup_member "show_epochs" members);
                           ("show_milestones",
                            lookup_member "show_milestones" members);
                           ("baseline_as_time_zero",
                            lookup_member "baseline_as_time_zero" members)])] /\
    store w1 = store w /\
    respond n o w1 = Some w2 /\
    calls w2 = calls w1 /\
    unhandled w2 = unhandled w /\
    match o with
    | Fulfilled resp =>
        match get_prop resp "data" with
        | Ok data =>
            store w2 = set SoaPreferences data (store w) /\
            awaited (RetPromise (After n)) w2 = Some (Fulfilled VUndefined)
        | Throw e =>
            store w2 = store w /\
            awaited (RetPromise (After n)) w2 = Some (Rejected e)
        end
    | Rejected e =>
        store w2 = store w /\
        awaited (RetPromise (After n)) w2 = Some (Rejected e)
    end.
Proof.
  intros Hu n. unfold setSoaPreferences. cbn [get_prop]. rewrite Hu.
  eexists. eexists. split; [reflexivity|].
  split; [reflexivity|]. split; [reflexivity|].
  split; [apply respond_fresh|].
  destruct o as [resp|e]; cbn [react].
  - destruct (get_prop resp "data") as [data|e]; cbn;
      repeat split; apply lookup_insert_eq.
  - cbn. repeat split. apply lookup_insert_eq.
Qed.

Lemma setSoaPreferences_after_confirmation_witness :
  let w := assign SelectedStudy (fixture_study []) boot in
  let arg := VObj [("show_milestones", VBool true); ("extra", VNum 1);
                   ("show_epochs", VBool false)] in
  exists w1 w2,
    setSoaPreferences arg w = (Ok (RetPromise (After 0)), w1) /\
    calls w1
    = [study_updateSoaPreferences (VStr "Study_000001")
         (VObj [("show_epochs", VBool false); ("show_milestones", VBool true);
                ("baseline_as_time_zero", VUndefined)])] /\
    store w1 = store w /\
    respond 0 (Rejected (Reason (VStr "Conflict"))) w1 = Some w2 /\
    calls w2 = calls w1 /\
    unhandled w2 = [] /\
    store w2 = store w /\
    awaited (RetPromise (After 0)) w2 = Some (Rejected (Reason (VStr "Conflict"))).
Proof.
  intros w arg.
  apply (setSoaPreferences_after_confirmation (VStr "Study_000001")
           [("show_milestones", VBool true); ("extra", VNum 1);
            ("show_epochs", VBool false)] w
           (Rejected (Reason (VStr "Conflict"))));
    reflexivity.
Defined.

(** X14.  An answer changes local storage only when it is the failure of a
    revalidation; and a failure that is not one changes neither the store
    nor the calls: no callback of the store retries or writes on failure. *)
Theorem answers_leave_storage_and_failures_leave_store (id : nat) (o : outcome)
    (r : reaction) (w w' : World) :
  pending w !! id = Some r ->
  respond id o w = Some w' ->
  (r <> AwaitGetStudy \/ (exists v, o = Fulfilled v) ->
   localStorage w' = localStorage w) /\
  (r <> AwaitGetStudy -> (exists e, o = Rejected e) ->
   store w' = store w /\ calls w' = calls w).
Proof.
  intros Hp. unfold respond. rewrite Hp. intros [= <-]. split.
  - intros Hr. destruct r, o; cbn [react];
      repeat match goal with
             | |- context [match ?x with _ => _ end] => destruct x
             end; try reflexivity.
    destruct Hr as [Hr|[v Hv]]; [congruence|discriminate].
  - intros Hr [e ->]. destruct r; try congruence; split; reflexivity.
Qed.

Lemma answers_leave_storage_and_failures_leave_store_witness :
  let w := snd (selectStudy (fixture_study []) VUndefined boot) in
  exists w',
    respond 1 (Rejected (Reason (VStr "Timeout"))) w = Some w' /\
    localStorage w' = localStorage w /\
    store w' = store w /\
    calls w' = calls w.
Proof.
  intros w. eexists. split; [reflexivity|].
  destruct (answers_leave_storage_and_failures_leave_store
              1 (Rejected (Reason (VStr "Timeout")))
              (ThenAssignData SoaPreferredTimeUnit) w _ eq_refl eq_refl)
    as [Hls Hst].
  split; [apply Hls; left; discriminate|].
  apply Hst; [discriminate|eauto].
Defined.

(** X15.  [fetchSnomedTerms] from end to end.  When the lookup fails, no second
    request follows.  When it yields a first item with a [codelist_uid],
    the second request follows, and its answer alone decides
    [snomedTerms]: the [items] of a successful answer replace the field,
    anything else leaves the store as it was.  Two calls at most are
    issued, and every failure on the way is an unhandled rejection. *)
Theorem fetchSnomedTerms_end_to_end (resp first uid : value)
    (others : list value) (o : outcome) (w : World) :
  get_path resp ["data"; "items"] = Ok (VArr (first :: others)) ->
  get_prop first "codelist_uid" = Ok uid ->
  let n := List.length (calls w) in
  let w1 := snd (fetchSnomedTerms w) in
  (forall e, exists w2,
     respond n (Rejected e) w1 = Some w2 /\
     calls w2 = calls w1 /\ store w2 = store w /\
     unhandled w2 = unhandled w ++ [e]) /\
  exists w2 w3,
    respond n (Fulfilled resp) w1 = Some w2 /\
    respond (S n) o w2 = Some w3 /\
    List.length (calls w3) = S (S n) /\
    match o with
    | Fulfilled resp2 =>
        match get_path resp2 ["data"; "items"] with
        | Ok items =>
            store w3 = set SnomedTerms items (store w) /\
            unhandled w3 = unhandled w
        | Throw e => store w3 = store w /\ unhandled w3 = unhandled w ++ [e]
        end
    | Rejected e => store w3 = store w /\ unhandled w3 = unhandled w ++ [e]
    end.
Proof.
  intros Hitems Huid n w1. subst w1. unfold fetchSnomedTerms. cbn [snd]. split.
  - intros e. eexists. split; [apply respond_fresh|]. repeat split.
  - eexists. eexists. split; [apply respond_fresh|].
    cbn [react]. unfold snomed_params. rewrite Hitems. cbn [bind].
    change (get_index (VArr (first :: others)) 0) with (Ok first).
    cbn [bind]. rewrite Huid. cbn [bind].
    unfold respond, request, settle. cbn [snd pending calls].
    rewrite length_app. cbn [List.length]. rewrite Nat.add_1_r. fold n.
    rewrite lookup_insert_eq.
    split; [reflexivity|].
    destruct o as [resp2|e]; cbn [react].
    + destruct (get_path resp2 ["data"; "items"]) as [items|e]; cbn;
        rewrite !length_app; cbn [List.length]; (split; [subst n; lia|]);
        repeat split.
    + cbn. rewrite !length_app. cbn [List.length]. split; [subst n; lia|].
      repeat split.
Qed.

Lemma fetchSnomedTerms_end_to_end_witness :
  let dictionaries := VObj [("data", VObj [("items",
                        VArr [VObj [("codelist_uid", VStr "DictionaryCodelist_1")]])])] in
  let terms := VArr [VObj [("name", VStr "Asthma")]] in
  let w1 := snd (fetchSnomedTerms boot) in
  exists w2 w3,
    respond 0 (Fulfilled dictionaries) w1 = Some w2 /\
    respond 1 (Fulfilled (VObj [("data", VObj [("items", terms)])])) w2 = Some w3 /\
    List.length (calls w3) = 2%nat /\
    store w3 = set SnomedTerms terms state /\
    unhandled w3 = [].
Proof.
  intros dictionaries terms w1.
  apply (fetchSnomedTerms_end_to_end dictionaries
           (VObj [("codelist_uid", VStr "DictionaryCodelist_1")])
           (VStr "DictionaryCodelist_1") []
           (Fulfilled (VObj [("data", VObj [("items", terms)])])) boot);
    reflexivity.
Defined.

(** X16.  A successful answer whose [data] has no [items] array is stored as it
    is: the levels field then holds something that is not an array
    ([undefined] when [items] is missing), and the sorted getter over it
    throws a [TypeError] and leaves the state alone. *)
Theorem sorted_getter_after_answer_without_items (resp items : value)
    (w : World) :
  get_path resp ["data"; "items"] = Ok items ->
  (forall l, items <> VArr l) ->
  let n := List.length (calls w) in
  (exists w2,
     respond n (Fulfilled resp) (snd (fetchObjectiveLevels w)) = Some w2 /\
     objectiveLevels (store w2) = items /\
     sortedObjectiveLevels (store w2) = (Throw TypeError, store w2)) /\
  (exists w2,
     respond n (Fulfilled resp) (snd (fetchEndpointLevels w)) = Some w2 /\
     endpointLevels (store w2) = items /\
     sortedEndpointLevels (store w2) = (Throw TypeError, store w2)).
Proof.
  intros Hitems Hnot n.
  split; (eexists; split; [apply respond_fresh|]);
    cbn [react]; rewrite Hitems; cbn;
    (split; [reflexivity|]);
    unfold sortedObjectiveLevels, sortedEndpointLevels, sorted_levels; cbn;
    destruct items; try reflexivity; exfalso; eapply Hnot; reflexivity.
Qed.

Lemma sorted_getter_after_answer_without_items_witness :
  let resp := VObj [("data", VObj [("total", VNum 0)])] in
  exists w2,
    respond 0 (Fulfilled resp) (snd (fetchObjectiveLevels boot)) = Some w2 /\
    objectiveLevels (store w2) = VUndefined /\
    sortedObjectiveLevels (store w2) = (Throw TypeError, store w2).
Proof.
  intros resp.
  apply (sorted_getter_after_answer_without_items resp VUndefined boot).
  - reflexivity.
  - discriminate.
Defined.

End Updates.

(** ** More on the sorted getters *)

Section SortedGetters.
Import JS ArraySort StudiesGeneral.

Lemma set_set (f : field) (u v : value) (st : Store) :
  set f v (set f u st) = set f v st.
Proof. destruct f; reflexivity. Qed.

Lemma set_get (f : field) (st : Store) : set f (get f st) st = st.
Proof. destruct st, f; reflexivity. Qed.

Lemma isort_of_sorted (l : list value) :
  Forall numeric_order l -> StronglySorted le_order l -> isort by_order l = Ok l.
Proof.
  induction 1 as [|x l [nx Hx] Hl IH]; intros Hs; [reflexivity|].
  apply StronglySorted_inv in Hs as [Hs Hle].
  cbn [isort]. rewrite (IH Hs). cbn [bind].
  destruct l as [|y l]; [reflexivity|].
  apply Forall_cons_1 in Hl as [[ny Hy] _].
  apply Forall_cons_1 in Hle as [Hxy _].
  unfold le_order in Hxy.
  rewrite (numeric_order_of x nx Hx), (numeric_order_of y ny Hy) in Hxy.
  cbn [insert]. rewrite (by_order_numeric x y nx ny Hx Hy). cbn [bind behind].
  destruct (Z.ltb_spec 0 (nx - ny)); [lia|reflexivity].
Qed.

(** X17.  The first access to a sorted getter is the only one that changes the
    state: once the levels, all with a numeric [order], have been sorted in
    place, every further access returns the same array and leaves the state
    as it is. *)
Theorem sorted_getters_settle_after_first_access (st : Store) (l : list value) :
  Forall numeric_order l ->
  (objectiveLevels st = VArr l ->
   sortedObjectiveLevels (snd (sortedObjectiveLevels st))
   = (fst (sortedObjectiveLevels st), snd (sortedObjectiveLevels st))) /\
  (endpointLevels st = VArr l ->
   sortedEndpointLevels (snd (sortedEndpointLevels st))
   = (fst (sortedEndpointLevels st), snd (sortedEndpointLevels st))).
Proof.
  intros Hl.
  assert (H : forall f, get f st = VArr l ->
            sorted_levels f (snd (sorted_levels f st))
            = (fst (sorted_levels f st), snd (sorted_levels f st))).
  { intros f Hf.
    destruct (sorted_levels_numeric f st l Hf Hl) as (l' & -> & Hperm & Hs).
    cbn [fst snd]. unfold sorted_levels. rewrite get_set_same.
    assert (Hl' : Forall numeric_order l') by now rewrite <- Hperm.
    unfold sort. destruct (filter_defined l' Hl') as [-> ->].
    rewrite (isort_of_sorted l' Hl' Hs). cbn [bind].
    now rewrite app_nil_r, set_set. }
  split; intros Hf; [apply (H ObjectiveLevels Hf)|apply (H EndpointLevels Hf)].
Qed.

Lemma sorted_getters_settle_after_first_access_witness :
  let st := set ObjectiveLevels (VArr [level 3; level 1; level 2]) state in
  sortedObjectiveLevels (snd (sortedObjectiveLevels st))
  = (fst (sortedObjectiveLevels st), snd (sortedObjectiveLevels st)).
Proof.
  intros st.
  apply (sorted_getters_settle_after_first_access st [level 3; level 1; level 2]).
  - repeat constructor; apply level_numeric.
  - reflexivity.
Defined.

Lemma insert_keeps_order_class (k : Z) (x : value) (l l' : list value) :
  numeric_order x -> Forall numeric_order l ->
  insert by_order x l = Ok l' ->
  List.filter (order_is k) l' = List.filter (order_is k) (x :: l).
Proof.
  intros [nx Hx] Hl. revert l'.
  induction Hl as [|y l [ny Hy] Hl IH]; intros l'; cbn [insert].
  - now intros [= <-].
  - rewrite (by_order_numeric x y nx ny Hx Hy). cbn [bind behind].
    destruct (Z.ltb_spec 0 (nx - ny)) as [Hgt|Hle]; [|now intros [= <-]].
    destruct (insert by_order x l) as [r|e]; [|discriminate].
    cbn [bind]. intros [= <-]. specialize (IH r eq_refl).
    assert (Hox : order_is k x = Z.eqb nx k)
      by (unfold order_is; now rewrite (numeric_order_of x nx Hx)).
    assert (Hoy : order_is k y = Z.eqb ny k)
      by (unfold order_is; now rewrite (numeric_order_of y ny Hy)).
    cbn [List.filter] in *. rewrite IH, Hox, Hoy.
    destruct (Z.eqb_spec ny k), (Z.eqb_spec nx k); try reflexivity. lia.
Qed.

Lemma isort_keeps_order_class (k : Z) (l l' : list value) :
  Forall numeric_order l ->
  isort by_order l = Ok l' ->
  List.filter (order_is k) l' = List.filter (order_is k) l.
Proof.
  intros Hl. revert l'.
  induction Hl as [|x l Hx Hl IH]; intros l'; cbn [isort]; [now intros [= <-]|].
  destruct (isort_sorted l Hl) as (s & Hs & Hperm & _). rewrite Hs. cbn [bind].
  intros Hins.
  rewrite (insert_keeps_order_class k x s l' Hx) by (now rewrite <- Hperm || exact Hins).
  cbn [List.filter]. now rewrite (IH s Hs).
Qed.

(** X18.  The sort is stable: levels that carry the same [order] come out of a
    sorted getter in the relative order they had in the collection. *)
Theorem sorted_getters_are_stable (st : Store) (l : list value) (k : Z) :
  Forall numeric_order l ->
  (objectiveLevels st = VArr l ->
   exists l', fst (sortedObjectiveLevels st) = Ok (VArr l') /\
              List.filter (order_is k) l' = List.filter (order_is k) l) /\
  (endpointLevels st = VArr l ->
   exists l', fst (sortedEndpointLevels st) = Ok (VArr l') /\
              List.filter (order_is k) l' = List.filter (order_is k) l).
Proof.
  intros Hl.
  assert (H : forall f, get f st = VArr l ->
            exists l', fst (sorted_levels f st) = Ok (VArr l') /\
                       List.filter (order_is k) l' = List.filter (order_is k) l).
  { intros f Hf. unfold sorted_levels, sort. rewrite Hf.
    destruct (filter_defined l Hl) as [-> ->].
    destruct (isort_sorted l Hl) as (s & Hs & _). rewrite Hs. cbn [bind fst].
    rewrite app_nil_r. exists s. split; [reflexivity|].
    now apply isort_keeps_order_class. }
  split; intros Hf; [apply (H ObjectiveLevels Hf)|apply (H EndpointLevels Hf)].
Qed.

Lemma sorted_getters_are_stable_witness :
  let named (n : Z) (name : string) :=
    VObj [("order", VNum n); ("name", VStr name)] in
  let l := [named 2 "b"; named 1 "x"; named 2 "a"; named 2 "c"] in
  exists l',
    fst (sortedObjectiveLevels (set ObjectiveLevels (VArr l) state)) = Ok (VArr l') /\
    List.filter (order_is 2) l' = [named 2 "b"; named 2 "a"; named 2 "c"].
Proof.
  intros named l.
  apply (sorted_getters_are_stable (set ObjectiveLevels (VArr l) state) l 2).
  - repeat constructor; eexists; reflexivity.
  - reflexivity.
Defined.

Lemma isort_without_order (l : list value) :
  Forall (fun v => get_prop v "order" = Ok VUndefined) l ->
  isort by_order l = Ok l.
Proof.
  induction 1 as [|x l Hx Hl IH]; [reflexivity|].
  cbn [isort]. rewrite IH. cbn [bind].
  destruct Hl as [|y l Hy _]; [reflexivity|].
  cbn [insert]. unfold by_order. rewrite Hx, Hy. reflexivity.
Qed.

(** X19.  Levels that have no [order] at all are left in the order they are in:
    the comparator answers [NaN] for every pair, the getter returns the
    collection as it stands, and the state does not change. *)
Theorem sorted_getters_without_order (st : Store) (l : list value) :
  Forall (fun v => get_prop v "order" = Ok VUndefined) l ->
  (objectiveLevels st = VArr l -> sortedObjectiveLevels st = (Ok (VArr l), st)) /\
  (endpointLevels st = VArr l -> sortedEndpointLevels st = (Ok (VArr l), st)).
Proof.
  intros Hl.
  assert (H : forall f, get f st = VArr l -> sorted_levels f st = (Ok (VArr l), st)).
  { intros f Hf. unfold sorted_levels, sort. rewrite Hf.
    assert (Hdef : List.filter (fun v => negb (is_undefined v)) l = l /\
                   List.filter is_undefined l = []).
    { clear Hf. induction Hl as [|x l Hx Hl [IH1 IH2]]; [now split|].
      cbn [List.filter]. destruct x; try discriminate Hx;
        cbn [is_undefined negb]; now rewrite IH1, IH2. }
    destruct Hdef as [-> ->]. rewrite (isort_without_order l Hl). cbn [bind].
    rewrite app_nil_r, <- Hf. now rewrite set_get. }
  split; intros Hf; [apply (H ObjectiveLevels Hf)|apply (H EndpointLevels Hf)].
Qed.

Lemma sorted_getters_without_order_witness :
  let l := [VObj [("name", VStr "Primary")]; VObj [("name", VStr "Secondary")];
            VObj []] in
  sortedObjectiveLevels (set ObjectiveLevels (VArr l) state)
  = (Ok (VArr l), set ObjectiveLevels (VArr l) state).
Proof.
  intros l.
  apply (sorted_getters_without_order (set ObjectiveLevels (VArr l) state) l).
  - repeat constructor.
  - reflexivity.
Defined.

Lemma by_order_throws (a b : value) (e : exn) :
  by_order a b = Throw e -> e = TypeError.
Proof.
  unfold by_order.
  destruct (get_prop a "order") as [x|e1] eqn:Ha; cbn [bind].
  - destruct (get_prop b "order") as [y|e2] eqn:Hb; cbn [bind]; [discriminate|].
    intros [= <-]. eapply get_prop_throws, Hb.
  - intros [= <-]. eapply get_prop_throws, Ha.
Qed.

Lemma insert_throws (x : value) (l : list value) (e : exn) :
  insert by_order x l = Throw e -> e = TypeError.
Proof.
  induction l as [|y l IH]; cbn [insert]; [discriminate|].
  destruct (by_order x y) as [c|e1] eqn:Hc; cbn [bind].
  - destruct (behind c); [|discriminate].
    destruct (insert by_order x l) as [r|e2]; cbn [bind]; [discriminate|].
    intros [= <-]. now apply IH.
  - intros [= <-]. eapply by_order_throws, Hc.
Qed.

Lemma isort_throws (l : list value) (e : exn) :
  isort by_order l = Throw e -> e = TypeError.
Proof.
  induction l as [|x l IH]; cbn [isort]; [discriminate|].
  destruct (isort by_order l) as [s|e1]; cbn [bind].
  - apply insert_throws.
  - intros [= <-]. now apply IH.
Qed.

Lemma insert_length (x : value) (l l' : list value) :
  insert by_order x l = Ok l' -> List.length l' = S (List.length l).
Proof.
  revert l'. induction l as [|y l IH]; intros l'; cbn [insert].
  - now intros [= <-].
  - destruct (by_order x y) as [c|e]; cbn [bind]; [|discriminate].
    destruct (behind c); [|now intros [= <-]].
    destruct (insert by_order x l) as [r|e]; cbn [bind]; [|discriminate].
    intros [= <-]. cbn [List.length]. now rewrite (IH r).
Qed.

Lemma isort_length (l l' : list value) :
  isort by_order l = Ok l' -> List.length l' = List.length l.
Proof.
  revert l'. induction l as [|x l IH]; intros l'; cbn [isort].
  - now intros [= <-].
  - destruct (isort by_order l) as [s|e]; cbn [bind]; [|discriminate].
    intros H. rewrite (insert_length _ _ _ H). cbn [List.length]. now rewrite (IH s).
Qed.

Lemma insert_null (l : list value) :
  l <> [] -> insert by_order VNull l = Throw TypeError.
Proof. destruct l; [congruence|reflexivity]. Qed.

Lemma insert_before_null (x : value) (l : list value) :
  insert by_order x (VNull :: l) = Throw TypeError.
Proof.
  cbn [insert]. unfold by_order.
  destruct (get_prop x "order") as [y|e] eqn:Hx; cbn [bind]; [reflexivity|].
  now rewrite (get_prop_throws _ _ _ Hx).
Qed.

Lemma isort_with_null (l : list value) :
  In VNull l -> (2 <= List.length l)%nat -> isort by_order l = Throw TypeError.
Proof.
  induction l as [|x l IH]; intros Hin Hlen; [destruct Hin|].
  cbn [isort].
  destruct (isort by_order l) as [s|e] eqn:Hs; cbn [bind].
  - pose proof (isort_length l s Hs) as Hlen'.
    destruct Hin as [->|Hin].
    + apply insert_null. destruct s; [|congruence].
      cbn [List.length] in *. lia.
    + destruct l as [|y [|z l]].
      * destruct Hin.
      * destruct Hin as [->|[]]. cbn in Hs.
        assert (s = [VNull]) as -> by congruence.
        apply insert_before_null.
      * assert (Hthrow : Ok s = @Throw (list value) TypeError)
          by (apply IH; [assumption|cbn [List.length]; lia]).
        discriminate Hthrow.
  - now rewrite (isort_throws l e Hs).
Qed.

(** X20.  A [null] among the levels makes a sorted getter throw a [TypeError] as
    soon as there is anything to compare it with, that is, when the
    collection holds two or more elements besides the [undefined] ones; the
    state is left as it is. *)
Theorem sorted_getters_throw_on_null (st : Store) (l : list value) :
  In VNull l ->
  (2 <= List.length (List.filter (fun v => negb (is_undefined v)) l))%nat ->
  (objectiveLevels st = VArr l -> sortedObjectiveLevels st = (Throw TypeError, st)) /\
  (endpointLevels st = VArr l -> sortedEndpointLevels st = (Throw TypeError, st)).
Proof.
  intros Hin Hlen.
  assert (H : forall f, get f st = VArr l -> sorted_levels f st = (Throw TypeError, st)).
  { intros f Hf. unfold sorted_levels, sort. rewrite Hf.
    rewrite isort_with_null; [reflexivity| |exact Hlen].
    apply filter_In. now split. }
  split; intros Hf; [apply (H ObjectiveLevels Hf)|apply (H EndpointLevels Hf)].
Qed.

Lemma sorted_getters_throw_on_null_witness :
  let l := [level 2; VUndefined; VNull; level 1] in
  sortedEndpointLevels (set EndpointLevels (VArr l) state)
  = (Throw TypeError, set EndpointLevels (VArr l) state).
Proof.
  intros l.
  apply (sorted_getters_throw_on_null (set EndpointLevels (VArr l) state) l).
  - cbn. tauto.
  - cbn. lia.
  - reflexivity.
Defined.

End SortedGetters.

(** ** More on the terminology client *)

Section ClientParameters.
Import JS ControlledTerminology.

Lemma lookup_set_member_other (k j : string) (v : value) (ms : list (string * value)) :
  j <> k -> lookup_member j (set_member k v ms) = lookup_member j ms.
Proof.
  intros Hjk. apply String.eqb_neq in Hjk.
  induction ms as [|[k' v'] ms IH]; cbn [set_member lookup_member].
  - now rewrite Hjk.
  - destruct (String.eqb k k') eqn:Hk; cbn [lookup_member].
    + apply String.eqb_eq in Hk as <-. now rewrite Hjk.
    + now rewrite IH.
Qed.

Lemma set_member_keys (k : string) (v : value) (ms : list (string * value)) :
  lookup_member k ms <> VUndefined ->
  map fst (set_member k v ms) = map fst ms.
Proof.
  induction ms as [|[k' v'] ms IH]; cbn [set_member lookup_member]; [congruence|].
  destruct (String.eqb k k') eqn:Hk; cbn [map fst].
  - apply String.eqb_eq in Hk as <-. reflexivity.
  - intros H. now rewrite IH.
Qed.

(** X21.  [getCodelists] never sends a page size of -1: it sends 1000 in its
    place, and any other page size, present or not, as it is.  The other
    members of the options go out unchanged, under the same keys in the
    same order, and the parameters sent are themselves options the
    operation sends unchanged. *)
Theorem getCodelists_page_size (options : value) (log : list http_call) :
  exists params,
    getCodelists options log
    = (Response (List.length log),
       log ++ [mk_call GET "ct/codelists" (with_params (VObj params))]) /\
    lookup_member "page_size" params
    = match lookup_member "page_size" (spread options) with
      | VNum (-1) => VNum 1000
      | size => size
      end /\
    lookup_member "page_size" params <> VNum (-1) /\
    (forall k, k <> "page_size" ->
       lookup_member k params = lookup_member k (spread options)) /\
    map fst params = map fst (spread options) /\
    getCodelists (VObj params) log = getCodelists options log.
Proof.
  unfold getCodelists, repository.
  destruct (lookup_member "page_size" (spread options)) as [| | |n| | |] eqn:Hsize;
    try (eexists; split; [reflexivity|]; cbn [spread];
         rewrite Hsize; repeat split; congruence).
  assert (Hn : n = -1 \/ n <> -1) by lia.
  destruct Hn as [->|Hn].
  - eexists. split; [reflexivity|]. cbn [spread].
    rewrite lookup_set_member_same.
    split; [reflexivity|]. split; [discriminate|].
    split; [intros k Hk; now apply lookup_set_member_other|].
    split; [apply set_member_keys; congruence|reflexivity].
  - assert (Hsame :
      match n with
      | -1 => set_member "page_size" (VNum 1000) (spread options)
      | _ => spread options
      end = spread options).
    { destruct n as [|p|p]; try reflexivity.
      destruct p; try reflexivity. congruence. }
    rewrite Hsame. eexists. split; [reflexivity|]. cbn [spread].
    rewrite Hsize, Hsame.
    split; [destruct n as [|p|[p|p|]]; (reflexivity || congruence)|].
    repeat split; congruence.
Qed.

(** X22.  In [getCodelistTermsAttributes] the [codelistUid] argument wins: the
    parameters sent hold it under [codelist_uid] whatever the options say
    about that key, and every other member of the options unchanged. *)
Theorem getCodelistTermsAttributes_codelist_uid (codelistUid options : value)
    (log : list http_call) :
  exists params,
    getCodelistTermsAttributes codelistUid options log
    = (Response (List.length log),
       log ++ [mk_call GET "ct/terms/attributes" (with_params (VObj params))]) /\
    lookup_member "codelist_uid" params = codelistUid /\
    (forall k, k <> "codelist_uid" ->
       lookup_member k params = lookup_member k (spread options)).
Proof.
  eexists. split; [reflexivity|].
  split; [apply lookup_set_member_same|].
  intros k Hk. now apply lookup_set_member_other.
Qed.

(** X23.  Every operation addresses the [ct] resource and nothing else: its URL
    starts with [ct/], and after the URL it hands the HTTP client one
    argument at most. *)
Theorem operations_address_ct (o : operation) (log : list http_call) :
  exists c rest,
    snd (run o log) = log ++ [c] /\
    call_url c = String.append "ct/" rest /\
    (List.length (call_args c) <= 1)%nat.
Proof.
  destruct o; eexists; eexists; (split; [reflexivity|]);
    (split; [reflexivity|cbn; lia]).
Qed.

Lemma append_assoc (a b c : string) :
  String.append (String.append a b) c = String.append a (String.append b c).
Proof.
  induction a as [|ch a IH]; [reflexivity|].
  change (String ch (String.append (String.append a b) c)
          = String ch (String.append a (String.append b c))).
  now rewrite IH.
Qed.

(** X24.  The identifiers are put into the URL as they are, without escaping: a
    codelist identifier that contains [/terms/] cannot be told from the
    term identifier that follows it, so two different pairs of arguments
    of [removeTermFromCodelist] can address one and the same URL. *)
Theorem removeTermFromCodelist_does_not_escape (x y z : string)
    (log : list http_call) :
  removeTermFromCodelist
    (VStr (String.append x (String.append "/terms/" y))) (VStr z) log
  = removeTermFromCodelist
      (VStr x) (VStr (String.append y (String.append "/terms/" z))) log /\
  exists c,
    snd (removeTermFromCodelist (VStr x) (VStr z) log) = log ++ [c] /\
    call_method c = DELETE /\
    call_url c
    = String.append "ct/codelists/"
        (String.append x (String.append "/terms/" z)).
Proof.
  split.
  - unfold removeTermFromCodelist, repository, template. cbn.
    now rewrite append_assoc.
  - eexists. repeat split.
Qed.

End ClientParameters.
